(** * Authentication brokers of the content server

    A shallow embedding of [app/scripts/models/auth_brokers/base.js]
    (BaseAuthenticationBroker) and of the OAuth broker that extends it
    (OAuthAuthenticationBroker), together with the statements the
    specification makes about them and further properties of the two
    classes.

    JavaScript objects live in a store indexed by locations, so that two
    names for one object are one location; every method is a computation
    over that store which either returns a value or fails (a thrown
    exception or a rejected promise). *)

From stdpp Require Import base strings gmap list fin_maps.
From Stdlib Require Import ZArith Ascii String.

Local Open Scope string_scope.

(** ** Values *)

Definition loc := positive.

(** The behaviours that occur in the two default tables:
    [new NullBehavior()] and [new HaltBehavior()]. *)
Inductive Behavior := NullBehavior | HaltBehavior.

(** [VBuiltin member] is the built-in of the runtime that every plain
    object inherits from [Object.prototype] under the name [member]: a
    function such as [toString], the constructor [Object] under
    [constructor], [Object.prototype] itself under [__proto__]. It has
    none of the properties and methods that the brokers use. *)
Inductive JSValue :=
| VUndefined
| VNull
| VBool (b : bool)
| VNum (n : Z)
| VStr (s : string)
| VBehavior (b : Behavior)
| VRef (l : loc)
| VBuiltin (member : string).

Global Instance Behavior_eq_dec : EqDecision Behavior.
Proof. solve_decision. Defined.

Global Instance JSValue_eq_dec : EqDecision JSValue.
Proof. solve_decision. Defined.

Definition JSValue_enc (v : JSValue)
    : unit + (unit + (bool + (Z + (string + (bool + (positive + string)))))) :=
  match v with
  | VUndefined => inl ()
  | VNull => inr (inl ())
  | VBool b => inr (inr (inl b))
  | VNum n => inr (inr (inr (inl n)))
  | VStr s => inr (inr (inr (inr (inl s))))
  | VBehavior NullBehavior => inr (inr (inr (inr (inr (inl false)))))
  | VBehavior HaltBehavior => inr (inr (inr (inr (inr (inl true)))))
  | VRef l => inr (inr (inr (inr (inr (inr (inl l))))))
  | VBuiltin m => inr (inr (inr (inr (inr (inr (inr m))))))
  end.

Definition JSValue_dec
    (x : unit + (unit + (bool + (Z + (string + (bool + (positive + string)))))))
    : JSValue :=
  match x with
  | inl _ => VUndefined
  | inr (inl _) => VNull
  | inr (inr (inl b)) => VBool b
  | inr (inr (inr (inl n))) => VNum n
  | inr (inr (inr (inr (inl s)))) => VStr s
  | inr (inr (inr (inr (inr (inl false))))) => VBehavior NullBehavior
  | inr (inr (inr (inr (inr (inl true))))) => VBehavior HaltBehavior
  | inr (inr (inr (inr (inr (inr (inl l)))))) => VRef l
  | inr (inr (inr (inr (inr (inr (inr m)))))) => VBuiltin m
  end.

Lemma JSValue_dec_enc v : JSValue_dec (JSValue_enc v) = v.
Proof. by destruct v as [| | | | |[]| |]. Qed.

Global Instance JSValue_countable : Countable JSValue :=
  inj_countable' JSValue_enc JSValue_dec JSValue_dec_enc.

(** [!! v] of JavaScript: the truth value of [v]. *)
Definition truthy (v : JSValue) : bool :=
  match v with
  | VUndefined | VNull => false
  | VBool b => b
  | VNum n => negb (Z.eqb n 0)
  | VStr s => negb (String.eqb s "")
  | VBehavior _ | VRef _ | VBuiltin _ => true
  end.

(** [a === b]. *)
Definition strict_eq (a b : JSValue) : bool := bool_decide (a = b).

(** [a || b]. *)
Definition js_or (a b : JSValue) : JSValue := if truthy a then a else b.

(** [v != null], which is how Backbone's [has] tests a value. *)
Definition not_nullish (v : JSValue) : bool :=
  match v with
  | VUndefined | VNull => false
  | _ => true
  end.

Abbreviation Obj := (gmap string JSValue).
Abbreviation Heap := (gmap loc (gmap string JSValue)).

(** ** Errors and the world *)

Inductive Error :=
| AuthError (name : string)     (* AuthErrors.toError(name) *)
| OAuthError (name : string)    (* OAuthErrors.toError(name) *)
| JSError (message : string)    (* new Error(message) *)
| TypeError                     (* a member of undefined or null, or a call of what is no function *)
| Raised (v : JSValue).         (* a failure that a collaborator produced *)

Inductive Outcome (A : Type) :=
| Returns (a : A)
| Fails (e : Error).
Arguments Returns {A} a.
Arguments Fails {A} e.

(** The invocations of the two OAuth collaborators, oldest first. *)
Inductive Call :=
| CallGenerate (sessionToken : JSValue)
| CallGetCode (oauthParams : gmap string JSValue).

Record World := mkWorld {
  heap : gmap loc (gmap string JSValue);
  session : gmap string (gmap string JSValue);
  storage : gmap (string * JSValue) (gmap string JSValue);
  calls : list Call
}.

Definition set_heap (f : Heap → Heap) (w : World) : World :=
  mkWorld (f (heap w)) (session w) (storage w) (calls w).
Definition set_session (f : gmap string Obj → gmap string Obj) (w : World) : World :=
  mkWorld (heap w) (f (session w)) (storage w) (calls w).
Definition set_storage (f : gmap (string * JSValue) Obj → gmap (string * JSValue) Obj)
    (w : World) : World :=
  mkWorld (heap w) (session w) (f (storage w)) (calls w).
Definition log_call (c : Call) (w : World) : World :=
  mkWorld (heap w) (session w) (storage w) (calls w ++ [c]).

(** ** The monad of methods

    A failure keeps the world as it was when the failure happened: what
    was written before a [throw] or a rejection stays written. *)

Definition M (A : Type) : Type := World → Outcome A * World.

Definition ret {A} (a : A) : M A := λ w, (Returns a, w).
Definition throw {A} (e : Error) : M A := λ w, (Fails e, w).
Definition bind {A B} (m : M A) (f : A → M B) : M B :=
  λ w, match m w with
       | (Returns a, w') => f a w'
       | (Fails e, w') => (Fails e, w')
       end.

Global Instance M_ret : MRet M := @ret.
Global Instance M_bind : MBind M := λ A B f m, bind m f.

(** ** Objects in the store *)

Definition getProp (h : Heap) (l : loc) (k : string) : JSValue :=
  match h !! l with
  | Some o => default VUndefined (o !! k)
  | None => VUndefined
  end.

Definition object_at (h : Heap) (l : loc) : Obj := default ∅ (h !! l).

Definition setProp (l : loc) (k : string) (v : JSValue) (h : Heap) : Heap :=
  <[l := <[k := v]> (object_at h l)]> h.

Definition delProp (l : loc) (k : string) (h : Heap) : Heap :=
  <[l := delete k (object_at h l)]> h.

(** [_.extend(target, source)]: every key of [source] is written on the
    target. *)
Definition extendProps (l : loc) (source : Obj) (h : Heap) : Heap :=
  <[l := source ∪ object_at h l]> h.

(** [{ ... }] and [new]: a fresh object. *)
Definition new_object (o : Obj) : M JSValue :=
  λ w, let l := fresh (dom (heap w)) in
       (Returns (VRef l), set_heap (insert l o) w).

(** [v.k], for the property names read here. *)
Definition member (v : JSValue) (k : string) : M JSValue :=
  λ w, match v with
       | VUndefined | VNull => (Fails TypeError, w)
       | VRef l => (Returns (getProp (heap w) l k), w)
       | _ => (Returns VUndefined, w)
       end.

(** [v.k = x] in strict mode. *)
Definition assign (v : JSValue) (k : string) (x : JSValue) : M unit :=
  λ w, match v with
       | VRef l => (Returns (), set_heap (setProp l k x) w)
       | _ => (Fails TypeError, w)
       end.

(** The own properties of [v] as [_.extend] copies them. *)
Definition properties_of (h : Heap) (v : JSValue) : Obj :=
  match v with
  | VRef l => object_at h l
  | _ => ∅
  end.

(** ** Backbone.Model

    The library class of which the registries, the relier, the account
    and the broker itself are instances. A model is represented by the
    location of its attribute hash, a plain object. [get] reads
    [attributes[attr]]: the hash's own property or, for a name that
    [Object.prototype] defines, the member the hash inherits. [has] is
    [get(attr) != null]. [set] writes one attribute and [unset] deletes
    it, both through a scratch object, [(attrs = {})[key] = val], of
    which the own keys are then copied or deleted: under ['__proto__']
    that assignment creates no own key, so nothing is stored and
    nothing deleted. (With an object for value, Backbone would go on to
    copy that object's keys; no caller among the sources passes one,
    and [set] leaves that out.) The constructor copies the attributes
    it is given into a hash of the model's own. Calling any of them on
    what is no object fails. *)
Module Model.

(** The names that [Object.prototype] defines. *)
Definition Object_prototype : list string :=
  [ "constructor"; "hasOwnProperty"; "isPrototypeOf"; "propertyIsEnumerable";
    "toLocaleString"; "toString"; "valueOf"; "__proto__";
    "__defineGetter__"; "__defineSetter__"; "__lookupGetter__"; "__lookupSetter__" ].

Definition inherited (attr : string) : bool :=
  existsb (String.eqb attr) Object_prototype.

(** [o[attr]] on the plain object [o]. *)
Definition read (o : Obj) (attr : string) : JSValue :=
  default (if inherited attr then VBuiltin attr else VUndefined) (o !! attr).

(** [attributes[attr]] in the store: as [getProp] for the names that
    are not inherited. *)
Definition getAttr (h : Heap) (l : loc) (attr : string) : JSValue :=
  if inherited attr then read (object_at h l) attr else getProp h l attr.
Arguments getAttr h l !attr /.

(** Whether [(attrs = {})[key] = val] gives the scratch object an own
    key. *)
Definition own_key (key : string) : bool := negb (String.eqb key "__proto__").

Definition create (attributes : JSValue) : M JSValue :=
  λ w, new_object (properties_of (heap w) attributes) w.

Definition get (model : JSValue) (attr : string) : M JSValue :=
  λ w, match model with
       | VRef l => (Returns (getAttr (heap w) l attr), w)
       | _ => (Fails TypeError, w)
       end.

Definition has (model : JSValue) (attr : string) : M bool :=
  v ← get model attr; ret (not_nullish v).

Definition set (model : JSValue) (attr : string) (value : JSValue) : M unit :=
  λ w, match model with
       | VRef l =>
           (Returns (), if own_key attr then set_heap (setProp l attr value) w else w)
       | _ => (Fails TypeError, w)
       end.

Definition unset (model : JSValue) (attr : string) : M unit :=
  λ w, match model with
       | VRef l =>
           (Returns (), if own_key attr then set_heap (delProp l attr) w else w)
       | _ => (Fails TypeError, w)
       end.

(** [model.set(attrs)] with a hash of attributes. *)
Definition setAll (model : JSValue) (attrs : Obj) : M unit :=
  λ w, match model with
       | VRef l => (Returns (), set_heap (extendProps l attrs) w)
       | _ => (Fails TypeError, w)
       end.

End Model.

(** ** What the brokers are given

    Code of the application that the brokers call and that is not part
    of the files at hand is taken as a parameter:
    - [global_window]: the global [window] that [initialize] falls back
      on;
    - [Url_searchParam name str]: [Url.searchParam] of [lib/url];
    - [Validate_isOAuthCodeValid]: the code-format validator of
      [lib/validate];
    - [transformUsingSchema search]: the schema-validated import of the
      query parameters that [importSearchParamsUsingSchema] of the
      search-param mixin performs on [window.location.search];
    - [generate] and [getCode]: what the assertion library and the OAuth
      client answer, which may depend on the calls made so far. *)
Record Env := mkEnv {
  global_window : JSValue;
  Url_searchParam : string → JSValue → JSValue;
  Validate_isOAuthCodeValid : JSValue → bool;
  transformUsingSchema : JSValue → Outcome (gmap string JSValue);
  generate : list Call → JSValue → Outcome JSValue;
  getCode : list Call → gmap string JSValue → Outcome JSValue
}.

(** Modelled from the spec: [lib/constants] is not among the sources;
    the spec names the offline access type "offline" and the two OAuth
    actions 'signin' and 'signup'. *)
Module Constants.
Definition ACCESS_TYPE_OFFLINE : JSValue := VStr "offline".
Definition OAUTH_ACTION_SIGNIN : JSValue := VStr "signin".
Definition OAUTH_ACTION_SIGNUP : JSValue := VStr "signup".
End Constants.

Inductive Kind := Base | OAuth.

Global Instance Kind_eq_dec : EqDecision Kind.
Proof. solve_decision. Defined.

(** The prototype of a broker class: its [type] and the two class-level
    tables, which are objects of the store shared by all instances. *)
Record Prototype := mkPrototype {
  kind : Kind;
  proto_defaultBehaviors : JSValue;
  proto_defaultCapabilities : JSValue
}.

(** Modelled from the spec: [models/verification/same-browser] is not
    among the sources. A correlation record is keyed by (namespace, uid)
    and holds the email and the attributes set on the model; [persist]
    writes it, [clear] deletes it, and deleting an absent record is not
    an error. *)
Module SameBrowserVerificationModel.

Record t := mk {
  email : JSValue;
  namespace : string;
  uid : JSValue;
  attributes : gmap string JSValue
}.

Definition set (attrs : Obj) (m : t) : t :=
  mk (email m) (namespace m) (uid m) (attrs ∪ attributes m).

Definition persist (m : t) : M JSValue :=
  λ w, (Returns VUndefined,
        set_storage (insert (namespace m, uid m) (<["email" := email m]> (attributes m))) w).

Definition clear (m : t) : M JSValue :=
  λ w, (Returns VUndefined, set_storage (delete (namespace m, uid m)) w).

(** What the verification landing page reads back. *)
Definition read (ns : string) (uid : JSValue) (w : World) : option Obj :=
  storage w !! (ns, uid).

End SameBrowserVerificationModel.

(** ** BaseAuthenticationBroker *)

Module BaseAuthenticationBroker.

Definition defaultBehaviors : Obj :=
  list_to_map [
    ("afterChangePassword", VBehavior NullBehavior);
    ("afterCompleteResetPassword", VBehavior NullBehavior);
    ("afterCompleteSignUp", VBehavior NullBehavior);
    ("afterDeleteAccount", VBehavior NullBehavior);
    ("afterForceAuth", VBehavior NullBehavior);
    ("afterResetPasswordConfirmationPoll", VBehavior NullBehavior);
    ("afterSignIn", VBehavior NullBehavior);
    ("afterSignInConfirmationPoll", VBehavior NullBehavior);
    ("afterSignUp", VBehavior NullBehavior);
    ("afterSignUpConfirmationPoll", VBehavior NullBehavior);
    ("beforeSignIn", VBehavior NullBehavior);
    ("beforeSignUpConfirmationPoll", VBehavior NullBehavior)
  ].

Definition defaultCapabilities : Obj :=
  list_to_map [
    ("allowUidChange", VBool false);
    ("chooseWhatToSyncCheckbox", VBool true);
    ("convertExternalLinksToText", VBool false);
    ("emailVerificationMarketingSnippet", VBool true);
    ("handleSignedInNotification", VBool true);
    ("signup", VBool true);
    ("syncPreferencesNotification", VBool false)
  ].

(** [Backbone.Model.extend({...})]: the class and its two tables. *)
Definition define : M Prototype :=
  behaviors ← new_object defaultBehaviors;
  capabilities ← new_object defaultCapabilities;
  mret (mkPrototype Base behaviors capabilities).

Section Methods.
Context (env : Env) (proto : Prototype).

(** [this.environment], a wrapper of the window that no method below
    reads, is left out. *)
Definition initialize (this : JSValue) (options : Obj) : M unit :=
  assign this "relier" (default VUndefined (options !! "relier"));;
  assign this "window"
    (js_or (default VUndefined (options !! "window")) (global_window env));;
  behaviors ← Model.create (proto_defaultBehaviors proto);
  assign this "_behaviors" behaviors;;
  capabilities ← Model.create (proto_defaultCapabilities proto);
  assign this "_capabilities" capabilities.

Definition setBehavior (this : JSValue) (behaviorName : string) (value : JSValue)
    : M JSValue :=
  behaviors ← member this "_behaviors";
  Model.set behaviors behaviorName value;;
  mret VUndefined.

Definition getBehavior (this : JSValue) (behaviorName : string) : M JSValue :=
  behaviors ← member this "_behaviors";
  found ← Model.has behaviors behaviorName;
  if negb found
  then throw (JSError ("behavior not found for: " +:+ behaviorName))
  else
    behaviors ← member this "_behaviors";
    Model.get behaviors behaviorName.

Definition _isForceAuthUrl (this : JSValue) : M JSValue :=
  window ← member this "window";
  location ← member window "location";
  pathname ← member location "pathname";
  mret (VBool (strict_eq pathname (VStr "/force_auth")
               || strict_eq pathname (VStr "/oauth/force_auth"))).

(** Modelled from the spec: the search-param mixin is not among the
    sources. The recognised query parameters of the window's search
    string are validated against the schema and set on the broker; a
    malformed one fails with a validation error. *)
Definition importSearchParamsUsingSchema (this : JSValue) : M JSValue :=
  window ← member this "window";
  location ← member window "location";
  search ← member location "search";
  match transformUsingSchema env search with
  | Fails e => throw e
  | Returns attrs =>
      attributes ← member this "attributes";
      Model.setAll attributes attrs;;
      mret VUndefined
  end.

Definition fetch (this : JSValue) : M JSValue :=
  isForceAuth ← _isForceAuthUrl this;
  assign this "_isForceAuth" isForceAuth;;
  importSearchParamsUsingSchema this;;
  mret VUndefined.

Definition canCancel (this : JSValue) : M JSValue := mret (VBool false).

Definition cancel (this : JSValue) : M JSValue := mret VUndefined.

Definition afterLoaded (this : JSValue) : M JSValue := mret VUndefined.

Definition beforeSignIn (this account : JSValue) : M JSValue :=
  getBehavior this "beforeSignIn".

Definition afterSignIn (this account : JSValue) : M JSValue :=
  getBehavior this "afterSignIn".

Definition afterSignInConfirmationPoll (this account : JSValue) : M JSValue :=
  getBehavior this "afterSignInConfirmationPoll".

Definition afterForceAuth (this account : JSValue) : M JSValue :=
  getBehavior this "afterForceAuth".

Definition createSameBrowserVerificationModel (account : JSValue) (namespace : string)
    : M SameBrowserVerificationModel.t :=
  email ← Model.get account "email";
  uid ← Model.get account "uid";
  mret (SameBrowserVerificationModel.mk email namespace uid ∅).

Definition clearSameBrowserVerificationModel (account : JSValue) (namespace : string)
    : M JSValue :=
  verificationInfo ← createSameBrowserVerificationModel account namespace;
  SameBrowserVerificationModel.clear verificationInfo.

Definition persistVerificationData (this account : JSValue) : M JSValue :=
  verificationInfo ← createSameBrowserVerificationModel account "context";
  relier ← member this "relier";
  context ← Model.get relier "context";
  SameBrowserVerificationModel.persist
    (SameBrowserVerificationModel.set {[ "context" := context ]} verificationInfo).

Definition unpersistVerificationData (this account : JSValue) : M JSValue :=
  clearSameBrowserVerificationModel account "context";;
  mret VUndefined.

Definition afterSignUp (this account : JSValue) : M JSValue :=
  getBehavior this "afterSignUp".

Definition beforeSignUpConfirmationPoll (this account : JSValue) : M JSValue :=
  getBehavior this "beforeSignUpConfirmationPoll".

Definition afterSignUpConfirmationPoll (this account : JSValue) : M JSValue :=
  getBehavior this "afterSignUpConfirmationPoll".

Definition afterCompleteSignUp (this account : JSValue) : M JSValue :=
  unpersistVerificationData this account;;
  getBehavior this "afterCompleteSignUp".

Definition afterResetPasswordConfirmationPoll (this account : JSValue) : M JSValue :=
  getBehavior this "afterResetPasswordConfirmationPoll".

Definition afterCompleteResetPassword (this account : JSValue) : M JSValue :=
  unpersistVerificationData this account;;
  getBehavior this "afterCompleteResetPassword".

Definition afterChangePassword (this account : JSValue) : M JSValue :=
  getBehavior this "afterChangePassword".

Definition afterDeleteAccount (this account : JSValue) : M JSValue :=
  getBehavior this "afterDeleteAccount".

Definition transformLink (this : JSValue) (link : string) : M JSValue :=
  mret (VStr link).

Definition isForceAuth (this : JSValue) : M JSValue :=
  v ← member this "_isForceAuth";
  mret (VBool (truthy v)).

Definition isAutomatedBrowser (this : JSValue) : M JSValue :=
  attributes ← member this "attributes";
  v ← Model.get attributes "automatedBrowser";
  mret (VBool (truthy v)).

Definition hasCapability (this : JSValue) (capabilityName : string) : M JSValue :=
  capabilities ← member this "_capabilities";
  found ← Model.has capabilities capabilityName;
  if (found : bool)
  then
    capabilities ← member this "_capabilities";
    v ← Model.get capabilities capabilityName;
    mret (VBool (truthy v))
  else mret (VBool false).

Definition setCapability (this : JSValue) (capabilityName : string)
    (capabilityValue : JSValue) : M JSValue :=
  capabilities ← member this "_capabilities";
  Model.set capabilities capabilityName capabilityValue;;
  mret VUndefined.

Definition unsetCapability (this : JSValue) (capabilityName : string) : M JSValue :=
  capabilities ← member this "_capabilities";
  Model.unset capabilities capabilityName;;
  mret VUndefined.

Definition getCapability (this : JSValue) (capabilityName : string) : M JSValue :=
  capabilities ← member this "_capabilities";
  Model.get capabilities capabilityName.

End Methods.
End BaseAuthenticationBroker.

(** ** Strings *)

(** [s.split(sep)] for a separator of one character. *)
Fixpoint split_on (sep : Ascii.ascii) (s : string) : list string :=
  match s with
  | EmptyString => [EmptyString]
  | String c rest =>
      if Ascii.eqb c sep then EmptyString :: split_on sep rest
      else match split_on sep rest with
           | [] => [String c EmptyString]
           | x :: xs => String c x :: xs
           end
  end.

(** [v.split(sep)[i]]: only a string has [split]. *)
Definition split_index (v : JSValue) (sep : Ascii.ascii) (i : nat) : M JSValue :=
  match v with
  | VStr s => mret (from_option VStr VUndefined (split_on sep s !! i))
  | _ => throw TypeError
  end.

(** [_.extend(target, source)] on a value: only an object is written. *)
Definition extend (target : JSValue) (source : Obj) : M JSValue :=
  λ w, match target with
       | VRef l => (Returns target, set_heap (extendProps l source) w)
       | _ => (Returns target, w)
       end.

(** Modelled from the spec: [lib/session] is not among the sources. The
    session holds the pending OAuth scratch state as a record of named
    values: [set] stores a value under a key and [clear] removes the
    key. Calling either on what is no object fails. *)
Module Session.

Definition set (s : JSValue) (key : string) (value : Obj) : M unit :=
  λ w, match s with
       | VRef _ => (Returns (), set_session (insert key value) w)
       | _ => (Fails TypeError, w)
       end.

Definition clear (s : JSValue) (key : string) : M unit :=
  λ w, match s with
       | VRef _ => (Returns (), set_session (delete key) w)
       | _ => (Fails TypeError, w)
       end.

End Session.

(** ** OAuthAuthenticationBroker *)

Module OAuthAuthenticationBroker.

(** [defaultBehaviors] and [defaultCapabilities] of the class:
    [_.extend({}, proto.default..., { ... })]. *)
Definition behaviorOverrides : Obj :=
  list_to_map [
    ("afterForceAuth", VBehavior HaltBehavior);
    ("afterSignIn", VBehavior HaltBehavior);
    ("afterSignInConfirmationPoll", VBehavior HaltBehavior)
  ].

Definition capabilityOverrides : Obj :=
  list_to_map [ ("handleSignedInNotification", VBool false) ].

Definition define (proto : Prototype) : M Prototype :=
  λ w,
    (behaviors ← new_object
       (behaviorOverrides ∪ properties_of (heap w) (proto_defaultBehaviors proto));
     capabilities ← new_object
       (capabilityOverrides ∪ properties_of (heap w) (proto_defaultCapabilities proto));
     mret (mkPrototype OAuth behaviors capabilities)) w.

Section Methods.
Context (env : Env) (proto : Prototype).

Definition _formatOAuthResult (result : JSValue) : M JSValue :=
  if negb (truthy result)
  then throw (OAuthError "INVALID_RESULT")
  else
    redirect ← member result "redirect";
    if negb (truthy redirect)
    then throw (OAuthError "INVALID_RESULT_REDIRECT")
    else
      redirect ← member result "redirect";
      redirectParams ← split_index redirect "?"%char 1;
      assign result "state" (Url_searchParam env "state" redirectParams);;
      assign result "code" (Url_searchParam env "code" redirectParams);;
      code ← member result "code";
      if negb (Validate_isOAuthCodeValid env code)
      then throw (OAuthError "INVALID_RESULT_CODE")
      else mret result.

Definition initialize (this : JSValue) (options : Obj) : M unit :=
  assign this "session" (default VUndefined (options !! "session"));;
  assign this "_assertionLibrary" (default VUndefined (options !! "assertionLibrary"));;
  assign this "_oAuthClient" (default VUndefined (options !! "oAuthClient"));;
  BaseAuthenticationBroker.initialize env proto this options.

(** [assertionLibrary.generate(sessionToken)]. *)
Definition call_generate (assertionLibrary sessionToken : JSValue) : M JSValue :=
  λ w, match assertionLibrary with
       | VRef _ =>
           (generate env (calls w) sessionToken, log_call (CallGenerate sessionToken) w)
       | _ => (Fails TypeError, w)
       end.

(** [oAuthClient.getCode(oauthParams)]. *)
Definition call_getCode (oAuthClient : JSValue) (oauthParams : Obj) : M JSValue :=
  λ w, match oAuthClient with
       | VRef _ =>
           (getCode env (calls w) oauthParams, log_call (CallGetCode oauthParams) w)
       | _ => (Fails TypeError, w)
       end.

(** The guard of [getOAuthResult], negated:
    [account && account.get('sessionToken')] as a truth value. *)
Definition has_sessionToken (account : JSValue) : M bool :=
  if negb (truthy account) then mret false
  else
    sessionToken ← Model.get account "sessionToken";
    mret (truthy sessionToken).

Definition getOAuthResult (this account : JSValue) : M JSValue :=
  ok ← has_sessionToken account;
  if negb ok
  then throw (AuthError "INVALID_TOKEN")
  else
    assertionLibrary ← member this "_assertionLibrary";
    sessionToken ← Model.get account "sessionToken";
    assertion ← call_generate assertionLibrary sessionToken;
    relier ← member this "relier";
    clientId ← Model.get relier "clientId";
    scope ← Model.get relier "scope";
    state ← Model.get relier "state";
    let oauthParams : Obj :=
      list_to_map [
        ("assertion", assertion);
        ("client_id", clientId);
        ("scope", scope);
        ("state", state)
      ] in
    accessType ← Model.get relier "accessType";
    let oauthParams : Obj :=
      if strict_eq accessType Constants.ACCESS_TYPE_OFFLINE
      then <["access_type" := Constants.ACCESS_TYPE_OFFLINE]> oauthParams
      else oauthParams in
    oAuthClient ← member this "_oAuthClient";
    result ← call_getCode oAuthClient oauthParams;
    _formatOAuthResult result.

Definition sendOAuthResultToRelier (this result : JSValue) : M JSValue :=
  throw (JSError "subclasses must override sendOAuthResultToRelier").

Definition finishOAuthFlow (this account : JSValue) (additionalResultData : Obj)
    : M JSValue :=
  session ← member this "session";
  Session.clear session "oauth";;
  result ← getOAuthResult this account;
  result ← extend result additionalResultData;
  sendOAuthResultToRelier this result.

Definition finishOAuthSignInFlow (this account : JSValue) : M JSValue :=
  finishOAuthFlow this account {[ "action" := Constants.OAUTH_ACTION_SIGNIN ]}.

Definition finishOAuthSignUpFlow (this account : JSValue) : M JSValue :=
  finishOAuthFlow this account {[ "action" := Constants.OAUTH_ACTION_SIGNUP ]}.

Definition persistVerificationData (this account : JSValue) : M JSValue :=
  relier ← member this "relier";
  session ← member this "session";
  access_type ← Model.get relier "access_type";
  action ← Model.get relier "action";
  client_id ← Model.get relier "clientId";
  keys ← Model.get relier "keys";
  scope ← Model.get relier "scope";
  state ← Model.get relier "state";
  Session.set session "oauth"
    (list_to_map [
       ("access_type", access_type);
       ("action", action);
       ("client_id", client_id);
       ("keys", keys);
       ("scope", scope);
       ("state", state)
     ]);;
  BaseAuthenticationBroker.persistVerificationData this account.

Definition afterForceAuth (this account : JSValue) : M JSValue :=
  finishOAuthSignInFlow this account;;
  BaseAuthenticationBroker.afterForceAuth this account.

Definition afterSignIn (this account : JSValue) : M JSValue :=
  finishOAuthSignInFlow this account;;
  BaseAuthenticationBroker.afterSignIn this account.

Definition afterSignInConfirmationPoll (this account : JSValue) : M JSValue :=
  finishOAuthSignInFlow this account;;
  BaseAuthenticationBroker.afterSignInConfirmationPoll this account.

Definition afterSignUpConfirmationPoll (this account : JSValue) : M JSValue :=
  finishOAuthSignUpFlow this account.

Definition afterResetPasswordConfirmationPoll (this account : JSValue) : M JSValue :=
  finishOAuthSignInFlow this account.

Definition transformLink (this : JSValue) (link : string) : M JSValue :=
  let link :=
    match link with
    | String "/" _ => link
    | _ => "/" +:+ link
    end in
  mret (VStr ("/oauth" +:+ link)).

End Methods.
End OAuthAuthenticationBroker.

(** ** Instances and method calls *)

(** [new Broker(options)]: Backbone's constructor gives the instance an
    attribute hash of its own holding a copy of its first argument, and
    then calls [initialize] with that argument. The fields in which
    Backbone keeps its own books ([cid], [changed],
    [_previousAttributes]), which no method of the brokers reads, are
    not represented. *)
Definition construct (env : Env) (proto : Prototype) (options : Obj) : M JSValue :=
  this ← new_object ∅;
  attributes ← new_object options;
  assign this "attributes" attributes;;
  match kind proto with
  | Base => BaseAuthenticationBroker.initialize env proto this options
  | OAuth => OAuthAuthenticationBroker.initialize env proto this options
  end;;
  mret this.

(** The methods of a broker other than [fetch]. *)
Inductive Method :=
| setBehavior (behaviorName : string) (value : JSValue)
| getBehavior (behaviorName : string)
| canCancel
| cancel
| afterLoaded
| beforeSignIn (account : JSValue)
| afterSignIn (account : JSValue)
| afterSignInConfirmationPoll (account : JSValue)
| afterForceAuth (account : JSValue)
| persistVerificationData (account : JSValue)
| unpersistVerificationData (account : JSValue)
| afterSignUp (account : JSValue)
| beforeSignUpConfirmationPoll (account : JSValue)
| afterSignUpConfirmationPoll (account : JSValue)
| afterCompleteSignUp (account : JSValue)
| afterResetPasswordConfirmationPoll (account : JSValue)
| afterCompleteResetPassword (account : JSValue)
| afterChangePassword (account : JSValue)
| afterDeleteAccount (account : JSValue)
| transformLink (link : string)
| isForceAuth
| isAutomatedBrowser
| hasCapability (capabilityName : string)
| setCapability (capabilityName : string) (capabilityValue : JSValue)
| unsetCapability (capabilityName : string)
| getCapability (capabilityName : string)
| getOAuthResult (account : JSValue)
| sendOAuthResultToRelier (result : JSValue)
| finishOAuthSignInFlow (account : JSValue)
| finishOAuthSignUpFlow (account : JSValue)
| finishOAuthFlow (account : JSValue) (additionalResultData : gmap string JSValue).

Module B := BaseAuthenticationBroker.
Module O := OAuthAuthenticationBroker.

(** [this.method(...)]: the OAuth broker's own definition where it has
    one, the base broker's otherwise; the base broker has none of the
    OAuth methods. *)
Definition invoke (env : Env) (k : Kind) (this : JSValue) (m : Method) : M JSValue :=
  match m, k with
  | setBehavior n v, _ => B.setBehavior this n v
  | getBehavior n, _ => B.getBehavior this n
  | canCancel, _ => B.canCancel this
  | cancel, _ => B.cancel this
  | afterLoaded, _ => B.afterLoaded this
  | beforeSignIn a, _ => B.beforeSignIn this a
  | afterSignIn a, Base => B.afterSignIn this a
  | afterSignIn a, OAuth => O.afterSignIn env this a
  | afterSignInConfirmationPoll a, Base => B.afterSignInConfirmationPoll this a
  | afterSignInConfirmationPoll a, OAuth => O.afterSignInConfirmationPoll env this a
  | afterForceAuth a, Base => B.afterForceAuth this a
  | afterForceAuth a, OAuth => O.afterForceAuth env this a
  | persistVerificationData a, Base => B.persistVerificationData this a
  | persistVerificationData a, OAuth => O.persistVerificationData this a
  | unpersistVerificationData a, _ => B.unpersistVerificationData this a
  | afterSignUp a, _ => B.afterSignUp this a
  | beforeSignUpConfirmationPoll a, _ => B.beforeSignUpConfirmationPoll this a
  | afterSignUpConfirmationPoll a, Base => B.afterSignUpConfirmationPoll this a
  | afterSignUpConfirmationPoll a, OAuth => O.afterSignUpConfirmationPoll env this a
  | afterCompleteSignUp a, _ => B.afterCompleteSignUp this a
  | afterResetPasswordConfirmationPoll a, Base =>
      B.afterResetPasswordConfirmationPoll this a
  | afterResetPasswordConfirmationPoll a, OAuth =>
      O.afterResetPasswordConfirmationPoll env this a
  | afterCompleteResetPassword a, _ => B.afterCompleteResetPassword this a
  | afterChangePassword a, _ => B.afterChangePassword this a
  | afterDeleteAccount a, _ => B.afterDeleteAccount this a
  | transformLink l, Base => B.transformLink this l
  | transformLink l, OAuth => O.transformLink this l
  | isForceAuth, _ => B.isForceAuth this
  | isAutomatedBrowser, _ => B.isAutomatedBrowser this
  | hasCapability n, _ => B.hasCapability this n
  | setCapability n v, _ => B.setCapability this n v
  | unsetCapability n, _ => B.unsetCapability this n
  | getCapability n, _ => B.getCapability this n
  | getOAuthResult a, OAuth => O.getOAuthResult env this a
  | sendOAuthResultToRelier r, OAuth => O.sendOAuthResultToRelier this r
  | finishOAuthSignInFlow a, OAuth => O.finishOAuthSignInFlow env this a
  | finishOAuthSignUpFlow a, OAuth => O.finishOAuthSignUpFlow env this a
  | finishOAuthFlow a d, OAuth => O.finishOAuthFlow env this a d
  | _, Base => throw TypeError
  end.

(** A sequence of calls on one instance, whatever each call answers. *)
Definition after_calls (env : Env) (k : Kind) (this : JSValue) (ms : list Method)
    (w : World) : World :=
  foldl (λ w m, (invoke env k this m w).2) w ms.

(** ** Classes, registries and runs *)

(** Loading the two modules: the base class, then the OAuth class. *)
Definition define_classes : M (Prototype * Prototype) :=
  base ← B.define;
  oauth ← O.define base;
  mret (base, oauth).

(** The default tables as the two classes declare them. *)
Definition declaredBehaviors (k : Kind) : Obj :=
  match k with
  | Base => B.defaultBehaviors
  | OAuth => O.behaviorOverrides ∪ B.defaultBehaviors
  end.

Definition declaredCapabilities (k : Kind) : Obj :=
  match k with
  | Base => B.defaultCapabilities
  | OAuth => O.capabilityOverrides ∪ B.defaultCapabilities
  end.


(** The calls that write a registry. *)
Inductive RegistryOp :=
| SetBehavior (behaviorName : string) (value : JSValue)
| SetCapability (capabilityName : string) (capabilityValue : JSValue)
| UnsetCapability (capabilityName : string).

Definition method_of (op : RegistryOp) : Method :=
  match op with
  | SetBehavior n v => setBehavior n v
  | SetCapability n v => setCapability n v
  | UnsetCapability n => unsetCapability n
  end.

(** The name that a registry call is about, and the sequences of calls
    none of which is about ['__proto__'], the one name under which
    [Model.set] leaves part of what Backbone does out. *)
Definition op_key (op : RegistryOp) : string :=
  match op with
  | SetBehavior n _ | SetCapability n _ | UnsetCapability n => n
  end.

Definition ordinary (ops : list RegistryOp) : Prop :=
  Forall (λ op, op_key op ≠ "__proto__") ops.

(** The registries as plain maps. *)
Definition behaviors_after (op : RegistryOp) (behaviors : Obj) : Obj :=
  match op with
  | SetBehavior n v => if Model.own_key n then <[n := v]> behaviors else behaviors
  | _ => behaviors
  end.

Definition capabilities_after (op : RegistryOp) (capabilities : Obj) : Obj :=
  match op with
  | SetCapability n v => if Model.own_key n then <[n := v]> capabilities else capabilities
  | UnsetCapability n => if Model.own_key n then delete n capabilities else capabilities
  | SetBehavior _ _ => capabilities
  end.

Definition behaviors_of (ops : list RegistryOp) (seed : Obj) : Obj :=
  foldl (λ m op, behaviors_after op m) seed ops.

Definition capabilities_of (ops : list RegistryOp) (seed : Obj) : Obj :=
  foldl (λ m op, capabilities_after op m) seed ops.

(** A sequence of registry calls on one instance. *)
Definition run_on (env : Env) (k : Kind) (this : JSValue) (ops : list RegistryOp)
    (w : World) : World :=
  after_calls env k this (method_of <$> ops) w.

(** [this] is an instance whose registries are the objects at [lb] and
    [lc], holding [behaviors] and [capabilities]. *)
Definition instance (h : Heap) (this lb lc : loc) (behaviors capabilities : Obj) : Prop :=
  getProp h this "_behaviors" = VRef lb ∧
  getProp h this "_capabilities" = VRef lc ∧
  h !! lb = Some behaviors ∧
  h !! lc = Some capabilities ∧
  this ≠ lb ∧ this ≠ lc ∧ lb ≠ lc.

(** Registry calls on two instances in any order: [true] marks a call
    on the first instance, [false] one on the second. *)
Definition run_both (env : Env) (kA : Kind) (a : JSValue) (kB : Kind) (b : JSValue)
    (l : list (bool * RegistryOp)) (w : World) : World :=
  foldl (λ w (x : bool * RegistryOp),
           (invoke env (if x.1 then kA else kB) (if x.1 then a else b)
              (method_of x.2) w).2) w l.

(** The calls of such a sequence that are made on one of the two. *)
Definition ops_for (first : bool) (l : list (bool * RegistryOp)) : list RegistryOp :=
  (filter (λ x : bool * RegistryOp, x.1 = first) l).*2.

(** A call of [fetch] or of another method. *)
Inductive Step := Fetch | Invoke (m : Method).

Definition step (env : Env) (k : Kind) (this : JSValue) (s : Step) (w : World) : World :=
  match s with
  | Fetch => (B.fetch env this w).2
  | Invoke m => (invoke env k this m w).2
  end.

Definition run (env : Env) (k : Kind) (this : JSValue) (ss : list Step) (w : World)
    : World :=
  foldl (λ w s, step env k this s w) w ss.

(** ** A scene to run the methods in *)

Module Examples.

(** A reader of query strings in the place of [Url.searchParam]: the
    value of the first [name=value] pair. *)
Definition searchParam (name : string) (str : JSValue) : JSValue :=
  match str with
  | VStr s =>
      from_option (λ kv : string * string, VStr kv.2) VUndefined
        (snd <$> list_find (λ kv : string * string, kv.1 = name)
           ((λ pair, match split_on "=" pair with
                     | k :: v :: _ => (k, v)
                     | _ => (pair, "")
                     end) <$> split_on "&" s))
  | _ => VUndefined
  end.

Definition is_hex (c : Ascii.ascii) : bool :=
  let n := Ascii.nat_of_ascii c in
  (((48 <=? n) && (n <=? 57)) || ((97 <=? n) && (n <=? 102)))%nat.

(** A validator in the place of [Validate.isOAuthCodeValid]: a non-empty
    string of hexadecimal digits. *)
Definition isOAuthCodeValid (code : JSValue) : bool :=
  match code with
  | VStr s => negb (String.eqb s "") && forallb is_hex (list_ascii_of_string s)
  | _ => false
  end.

(** The OAuth client answers with the object at location 1, the first
    that [scene] creates. *)
Definition env : Env :=
  mkEnv VUndefined searchParam isOAuthCodeValid
    (λ _, Returns ∅)
    (λ _ _, Returns (VStr "assertion"))
    (λ _ _, Returns (VRef 1%positive)).

Definition empty : World := mkWorld ∅ ∅ ∅ [].

Record Scene := mkScene {
  result : JSValue;
  relier : JSValue;
  account : JSValue;
  guest : JSValue;
  baseProto : Prototype;
  oauthProto : Prototype;
  baseBroker : JSValue;
  oauthBroker : JSValue
}.

Definition scene : M Scene :=
  result ← new_object {[ "redirect" := VStr "https://rp/cb?state=S&code=c0de" ]};
  classes ← define_classes;
  relier ← new_object (list_to_map [
    ("accessType", VStr "offline"); ("clientId", VStr "dcdb5ae7add825d2");
    ("scope", VStr "profile"); ("state", VStr "s1"); ("keys", VBool true);
    ("context", VStr "oauth") ]);
  account ← new_object (list_to_map [
    ("uid", VStr "uid1"); ("email", VStr "a@b.c"); ("sessionToken", VStr "tok") ]);
  guest ← new_object (list_to_map [ ("uid", VStr "uid2"); ("email", VStr "g@b.c") ]);
  session ← new_object ∅;
  assertionLibrary ← new_object ∅;
  oAuthClient ← new_object ∅;
  location ← new_object {[ "pathname" := VStr "/oauth/force_auth" ]};
  window ← new_object {[ "location" := location ]};
  let options : Obj := list_to_map [
    ("relier", relier); ("session", session); ("window", window);
    ("assertionLibrary", assertionLibrary); ("oAuthClient", oAuthClient) ] in
  baseBroker ← construct env classes.1 options;
  oauthBroker ← construct env classes.2 options;
  mret (mkScene result relier account guest classes.1 classes.2
          baseBroker oauthBroker).

Definition world : World := (scene empty).2.

(** The objects of the scene: the result at 1, the relier at 6, the
    account at 7, an account without a session token at 8, the session,
    the assertion library and the OAuth client at 9, 10 and 11, the
    window's location at 12, the window at 13, the base broker at 14 and
    the OAuth broker at 18. *)
Definition the : Scene :=
  Eval vm_compute in
    match (scene empty).1 with
    | Returns s => s
    | Fails _ =>
        mkScene VUndefined VUndefined VUndefined VUndefined
          (mkPrototype Base VUndefined VUndefined)
          (mkPrototype OAuth VUndefined VUndefined) VUndefined VUndefined
    end.

End Examples.

(** Two more environments for the scene. *)
Module Collaborators.

(** The scene's environment with an assertion library that refuses. *)
Definition refusing : Env :=
  mkEnv VUndefined Examples.searchParam Examples.isOAuthCodeValid
    (λ _, Returns ∅)
    (λ _ _, Fails (AuthError "UNEXPECTED_ERROR"))
    (λ _ _, Returns (VRef 1%positive)).

(** The scene's environment with the scene's window, at 13, as the
    global one. *)
Definition global : Env :=
  mkEnv (VRef 13%positive) Examples.searchParam Examples.isOAuthCodeValid
    (λ _, Returns ∅)
    (λ _ _, Returns (VStr "assertion"))
    (λ _ _, Returns (VRef 1%positive)).

End Collaborators.

(** ** Reasoning about methods *)

(** [keeps f m]: the component [f] of the world is the same after [m],
    whether [m] returns or fails. *)
Definition keeps {A X} (f : World → X) (m : M A) : Prop :=
  ∀ w, f (m w).2 = f w.

(** [triple P m Q E]: from a world in [P], [m] returns a value and a world
    in [Q], or fails in a world in [E]. *)
Definition triple {A} (P : World → Prop) (m : M A) (Q : A → World → Prop)
    (E : World → Prop) : Prop :=
  ∀ w, P w →
    match m w with
    | (Returns a, w') => Q a w'
    | (Fails _, w') => E w'
    end.

(** Two worlds that differ in the store only. *)
Definition same_outside_heap (w w' : World) : Prop :=
  session w' = session w ∧ storage w' = storage w ∧ calls w' = calls w.

(** The object [o] after [BaseAuthenticationBroker.initialize]. *)
Definition base_props (env : Env) (options o : Obj) (lb lc : loc) : Obj :=
  <["_capabilities" := VRef lc]>
    (<["_behaviors" := VRef lb]>
       (<["window" := js_or (default VUndefined (options !! "window")) (global_window env)]>
          (<["relier" := default VUndefined (options !! "relier")]> o))).

(** The object [o] after the three assignments with which
    [OAuthAuthenticationBroker.initialize] begins. *)
Definition oauth_props (options o : Obj) : Obj :=
  <["_oAuthClient" := default VUndefined (options !! "oAuthClient")]>
    (<["_assertionLibrary" := default VUndefined (options !! "assertionLibrary")]>
       (<["session" := default VUndefined (options !! "session")]> o)).

(** The properties of a new instance. *)
Definition instance_props (env : Env) (k : Kind) (options : Obj) (la lb lc : loc) : Obj :=
  let o : Obj := {[ "attributes" := VRef la ]} in
  base_props env options
    (match k with Base => o | OAuth => oauth_props options o end) lb lc.

(** The broker's own object is [o]. *)
Definition untouched (this : loc) (o : Obj) (w : World) : Prop :=
  heap w !! this = Some o.

(** An object that no call writes through an alias: it has no [redirect],
    and its registries and attribute hash are other objects. *)
Definition guarded (this : loc) (o : Obj) : Prop :=
  o !! "redirect" = None ∧
  o !! "_behaviors" ≠ Some (VRef this) ∧
  o !! "_capabilities" ≠ Some (VRef this) ∧
  o !! "attributes" ≠ Some (VRef this).

(** An account that is null (or otherwise falsy), or an account object
    whose [sessionToken] is absent (or otherwise falsy). *)
Definition no_session_credential (w : World) (account : JSValue) : Prop :=
  truthy account = false ∨
  ∃ l, account = VRef l ∧ truthy (getProp (heap w) l "sessionToken") = false.

(** [reads m]: [m] leaves the whole world as it is, whether it returns
    or fails. *)
Definition reads {A} (m : M A) : Prop := ∀ w, (m w).2 = w.

(** The methods of a class that only answer: the getters, the fixed
    answers, the hooks that do nothing but look their behaviour up, and
    the OAuth broker's [sendOAuthResultToRelier], which only refuses. *)
Definition is_query (k : Kind) (m : Method) : bool :=
  match m, k with
  | getBehavior _, _ | canCancel, _ | cancel, _ | afterLoaded, _
  | beforeSignIn _, _ | afterSignUp _, _ | beforeSignUpConfirmationPoll _, _
  | afterChangePassword _, _ | afterDeleteAccount _, _ | transformLink _, _
  | isForceAuth, _ | isAutomatedBrowser, _ | hasCapability _, _ | getCapability _, _ => true
  | afterSignIn _, Base | afterSignInConfirmationPoll _, Base | afterForceAuth _, Base
  | afterSignUpConfirmationPoll _, Base | afterResetPasswordConfirmationPoll _, Base => true
  | sendOAuthResultToRelier _, OAuth => true
  | _, _ => false
  end.


(** The parameter set that [getOAuthResult] hands to [getCode], read off
    the relier at [relier] in the store [h]. *)
Definition oauthParams_of (h : Heap) (relier : loc) (assertion : JSValue) : Obj :=
  let base : Obj :=
    list_to_map [
      ("assertion", assertion);
      ("client_id", getProp h relier "clientId");
      ("scope", getProp h relier "scope");
      ("state", getProp h relier "state")
    ] in
  if strict_eq (getProp h relier "accessType") Constants.ACCESS_TYPE_OFFLINE
  then <["access_type" := Constants.ACCESS_TYPE_OFFLINE]> base
  else base.

(** ** The store *)

Lemma lookup_setProp_ne l l' k v (h : Heap) :
  l ≠ l' → setProp l k v h !! l' = h !! l'.
Proof. intros. unfold setProp. by rewrite lookup_insert_ne. Qed.

Lemma lookup_setProp_eq l k v (h : Heap) :
  setProp l k v h !! l = Some (<[k := v]> (object_at h l)).
Proof. unfold setProp. by rewrite lookup_insert_eq. Qed.

Lemma lookup_delProp_ne l l' k (h : Heap) :
  l ≠ l' → delProp l k h !! l' = h !! l'.
Proof. intros. unfold delProp. by rewrite lookup_insert_ne. Qed.

Lemma lookup_delProp_eq l k (h : Heap) :
  delProp l k h !! l = Some (delete k (object_at h l)).
Proof. unfold delProp. by rewrite lookup_insert_eq. Qed.

Lemma lookup_extendProps_ne l l' o (h : Heap) :
  l ≠ l' → extendProps l o h !! l' = h !! l'.
Proof. intros. unfold extendProps. by rewrite lookup_insert_ne. Qed.

Lemma getProp_setProp_eq l k v (h : Heap) : getProp (setProp l k v h) l k = v.
Proof. unfold getProp. by rewrite lookup_setProp_eq, lookup_insert_eq. Qed.

Lemma getProp_setProp_ne_key l k k' v (h : Heap) :
  k ≠ k' → getProp (setProp l k v h) l k' = getProp h l k'.
Proof.
  intros. unfold getProp. rewrite lookup_setProp_eq, lookup_insert_ne by done.
  unfold object_at. by destruct (h !! l).
Qed.

Lemma getProp_setProp_ne_loc l l' k k' v (h : Heap) :
  l ≠ l' → getProp (setProp l k v h) l' k' = getProp h l' k'.
Proof. intros. unfold getProp. by rewrite lookup_setProp_ne. Qed.

Lemma getProp_lookup (h1 h2 : Heap) l k :
  h1 !! l = h2 !! l → getProp h1 l k = getProp h2 l k.
Proof. unfold getProp. by intros ->. Qed.

Lemma fresh_not_allocated (h : Heap) : h !! fresh (dom h) = None.
Proof. apply not_elem_of_dom, is_fresh. Qed.

(** ** Rules of the monad *)

Lemma bind_returns {A B} (m : M A) (f : A → M B) w a w' :
  m w = (Returns a, w') → (m ≫= f) w = f a w'.
Proof. unfold mbind, M_bind, bind. by intros ->. Qed.

Lemma bind_fails {A B} (m : M A) (f : A → M B) w e w' :
  m w = (Fails e, w') → (m ≫= f) w = (Fails e, w').
Proof. unfold mbind, M_bind, bind. by intros ->. Qed.

Lemma keeps_ret {A X} (f : World → X) (a : A) : keeps f (mret a).
Proof. done. Qed.

Lemma keeps_throw {A X} (f : World → X) e : keeps f (@throw A e).
Proof. done. Qed.

Lemma keeps_bind {A B X} (f : World → X) (m : M A) (k : A → M B) :
  keeps f m → (∀ a, keeps f (k a)) → keeps f (m ≫= k).
Proof.
  intros Hm Hk w. unfold mbind, M_bind, bind.
  specialize (Hm w). destruct (m w) as [[a|e] w']; simpl in *.
  - by rewrite Hk.
  - done.
Qed.

Lemma triple_ret {A} (P : A → World → Prop) E (a : A) : triple (P a) (mret a) P E.
Proof. by intros w Hw. Qed.

Lemma triple_throw {A} (Q : A → World → Prop) (E : World → Prop) e :
  triple E (throw e) Q E.
Proof. by intros w Hw. Qed.

Lemma triple_bind {A B} P (m : M A) (k : A → M B) Q R E :
  triple P m Q E → (∀ a, triple (Q a) (k a) R E) → triple P (m ≫= k) R E.
Proof.
  intros Hm Hk w Hw. unfold mbind, M_bind, bind.
  specialize (Hm w Hw). destruct (m w) as [[a|e] w']; [|done].
  by apply Hk.
Qed.

Lemma triple_weaken {A} (P P' : World → Prop) (m : M A) (Q Q' : A → World → Prop) E :
  triple P' m Q' E → (∀ w, P w → P' w) → (∀ a w, Q' a w → Q a w) →
  triple P m Q E.
Proof.
  intros Hm HP HQ w Hw. specialize (Hm w (HP w Hw)).
  destruct (m w) as [[a|e] w']; auto.
Qed.

(** What each primitive leaves alone. *)

Lemma keeps_heap_member {X} (f : World → X) v k : keeps f (member v k).
Proof. intros w. by destruct v. Qed.

Lemma keeps_Model_get {X} (f : World → X) v k : keeps f (Model.get v k).
Proof. intros w. by destruct v. Qed.

Lemma keeps_Model_has {X} (f : World → X) v k : keeps f (Model.has v k).
Proof. apply keeps_bind; [apply keeps_Model_get | intros; apply keeps_ret]. Qed.

Lemma keeps_split_index {X} (f : World → X) v c i : keeps f (split_index v c i).
Proof. intros w. by destruct v. Qed.

Lemma keeps_session_assign v k x : keeps session (assign v k x).
Proof. intros w. by destruct v. Qed.

Lemma keeps_storage_assign v k x : keeps storage (assign v k x).
Proof. intros w. by destruct v. Qed.

Lemma keeps_calls_assign v k x : keeps calls (assign v k x).
Proof. intros w. by destruct v. Qed.

Lemma keeps_session_extend v o : keeps session (extend v o).
Proof. intros w. by destruct v. Qed.

Lemma keeps_storage_extend v o : keeps storage (extend v o).
Proof. intros w. by destruct v. Qed.

Lemma keeps_calls_extend v o : keeps calls (extend v o).
Proof. intros w. by destruct v. Qed.

Lemma keeps_session_call_generate env v t : keeps session (O.call_generate env v t).
Proof. intros w. by destruct v. Qed.

Lemma keeps_storage_call_generate env v t : keeps storage (O.call_generate env v t).
Proof. intros w. by destruct v. Qed.

Lemma keeps_heap_call_generate env v t : keeps heap (O.call_generate env v t).
Proof. intros w. by destruct v. Qed.

Lemma keeps_session_call_getCode env v p : keeps session (O.call_getCode env v p).
Proof. intros w. by destruct v. Qed.

Lemma keeps_storage_call_getCode env v p : keeps storage (O.call_getCode env v p).
Proof. intros w. by destruct v. Qed.

Lemma keeps_heap_call_getCode env v p : keeps heap (O.call_getCode env v p).
Proof. intros w. by destruct v. Qed.

Create HintDb keeps discriminated.
#[export] Hint Resolve keeps_ret keeps_throw keeps_heap_member keeps_Model_get
  keeps_Model_has keeps_split_index keeps_session_assign keeps_storage_assign
  keeps_calls_assign keeps_session_extend keeps_storage_extend keeps_calls_extend
  keeps_session_call_generate keeps_storage_call_generate keeps_heap_call_generate
  keeps_session_call_getCode keeps_storage_call_getCode keeps_heap_call_getCode
  : keeps.

(** Splits a goal [keeps f m] along the structure of [m]. *)
Ltac keeps_steps :=
  repeat first
    [ progress eauto with keeps
    | apply keeps_bind; [| intros ?]
    | match goal with
      | |- keeps _ (if ?b then _ else _) => destruct b
      | |- keeps _ (match ?x with _ => _ end) => destruct x
      end ].

Lemma keeps_session_formatOAuthResult env result :
  keeps session (O._formatOAuthResult env result).
Proof. unfold O._formatOAuthResult. keeps_steps. Qed.

Lemma keeps_calls_formatOAuthResult env result :
  keeps calls (O._formatOAuthResult env result).
Proof. unfold O._formatOAuthResult. keeps_steps. Qed.

Lemma keeps_has_sessionToken {X} (f : World → X) account :
  keeps f (O.has_sessionToken account).
Proof. unfold O.has_sessionToken. keeps_steps. Qed.

#[export] Hint Resolve keeps_session_formatOAuthResult keeps_calls_formatOAuthResult
  keeps_has_sessionToken : keeps.

Lemma keeps_session_getOAuthResult env this account :
  keeps session (O.getOAuthResult env this account).
Proof. unfold O.getOAuthResult. keeps_steps. Qed.

Lemma keeps_heap_Session_set s k v : keeps heap (Session.set s k v).
Proof. intros w. by destruct s. Qed.

Lemma keeps_storage_Session_set s k v : keeps storage (Session.set s k v).
Proof. intros w. by destruct s. Qed.

Lemma keeps_calls_Session_set s k v : keeps calls (Session.set s k v).
Proof. intros w. by destruct s. Qed.

Lemma keeps_heap_Session_clear s k : keeps heap (Session.clear s k).
Proof. intros w. by destruct s. Qed.

Lemma keeps_storage_Session_clear s k : keeps storage (Session.clear s k).
Proof. intros w. by destruct s. Qed.

Lemma keeps_calls_Session_clear s k : keeps calls (Session.clear s k).
Proof. intros w. by destruct s. Qed.

Lemma keeps_heap_persist m : keeps heap (SameBrowserVerificationModel.persist m).
Proof. done. Qed.

Lemma keeps_session_persist m : keeps session (SameBrowserVerificationModel.persist m).
Proof. done. Qed.

Lemma keeps_calls_persist m : keeps calls (SameBrowserVerificationModel.persist m).
Proof. done. Qed.

Lemma keeps_heap_clear m : keeps heap (SameBrowserVerificationModel.clear m).
Proof. done. Qed.

Lemma keeps_session_clear m : keeps session (SameBrowserVerificationModel.clear m).
Proof. done. Qed.

Lemma keeps_calls_clear m : keeps calls (SameBrowserVerificationModel.clear m).
Proof. done. Qed.

#[export] Hint Resolve keeps_heap_Session_set keeps_storage_Session_set
  keeps_calls_Session_set keeps_heap_Session_clear keeps_storage_Session_clear
  keeps_calls_Session_clear keeps_heap_persist keeps_session_persist
  keeps_calls_persist keeps_heap_clear keeps_session_clear keeps_calls_clear
  : keeps.

Lemma keeps_createSameBrowserVerificationModel {X} (f : World → X) account ns :
  keeps f (B.createSameBrowserVerificationModel account ns).
Proof. unfold B.createSameBrowserVerificationModel. keeps_steps. Qed.

#[export] Hint Resolve keeps_createSameBrowserVerificationModel : keeps.

Lemma keeps_heap_base_persistVerificationData this account :
  keeps heap (B.persistVerificationData this account).
Proof. unfold B.persistVerificationData. keeps_steps. Qed.

Lemma keeps_heap_oauth_persistVerificationData this account :
  keeps heap (O.persistVerificationData this account).
Proof. unfold O.persistVerificationData. keeps_steps. Qed.

Lemma keeps_heap_unpersistVerificationData this account :
  keeps heap (B.unpersistVerificationData this account).
Proof.
  unfold B.unpersistVerificationData, B.clearSameBrowserVerificationModel.
  keeps_steps.
Qed.

Lemma assign_spec l k x w :
  ∃ w', assign (VRef l) k x w = (Returns (), w') ∧
        heap w' = setProp l k x (heap w) ∧ same_outside_heap w w'.
Proof. by eexists. Qed.

Lemma new_object_spec o w :
  ∃ l w', new_object o w = (Returns (VRef l), w') ∧
          heap w !! l = None ∧ heap w' = <[l := o]> (heap w) ∧ same_outside_heap w w'.
Proof. eexists _, _. split_and!; try done. apply fresh_not_allocated. Qed.

Lemma Model_create_spec v w :
  ∃ l w', Model.create v w = (Returns (VRef l), w') ∧
          heap w !! l = None ∧ heap w' = <[l := properties_of (heap w) v]> (heap w) ∧
          same_outside_heap w w'.
Proof. apply new_object_spec. Qed.

Lemma same_outside_heap_trans w1 w2 w3 :
  same_outside_heap w1 w2 → same_outside_heap w2 w3 → same_outside_heap w1 w3.
Proof. intros (?&?&?) (?&?&?). split_and!; congruence. Qed.

Lemma lookup_setProp l k v (h : Heap) l' :
  setProp l k v h !! l' = if decide (l = l') then Some (<[k := v]> (object_at h l)) else h !! l'.
Proof. unfold setProp. rewrite lookup_insert. by case_decide. Qed.

Lemma base_initialize_spec env proto this o options w :
  heap w !! this = Some o →
  ∃ lb lc B0 C0 w',
    B.initialize env proto (VRef this) options w = (Returns (), w') ∧
    heap w !! lb = None ∧ heap w !! lc = None ∧ lb ≠ lc ∧
    heap w' = <[lc := C0]> (<[lb := B0]> (<[this := base_props env options o lb lc]> (heap w))) ∧
    (∀ lt, proto_defaultBehaviors proto = VRef lt → lt ≠ this →
           is_Some (heap w !! lt) → B0 = object_at (heap w) lt) ∧
    (∀ lt, proto_defaultCapabilities proto = VRef lt → lt ≠ this →
           is_Some (heap w !! lt) → C0 = object_at (heap w) lt) ∧
    same_outside_heap w w'.
Proof.
  intros Hthis. unfold B.initialize.
  destruct (assign_spec this "relier" (default VUndefined (options !! "relier")) w)
    as (w1 & E1 & H1 & S1).
  rewrite (bind_returns _ _ _ _ _ E1).
  destruct (assign_spec this "window"
    (js_or (default VUndefined (options !! "window")) (global_window env)) w1)
    as (w2 & E2 & H2 & S2).
  rewrite (bind_returns _ _ _ _ _ E2).
  destruct (Model_create_spec (proto_defaultBehaviors proto) w2) as (lb & w3 & E3 & F3 & H3 & S3).
  rewrite (bind_returns _ _ _ _ _ E3).
  destruct (assign_spec this "_behaviors" (VRef lb) w3) as (w4 & E4 & H4 & S4).
  rewrite (bind_returns _ _ _ _ _ E4).
  destruct (Model_create_spec (proto_defaultCapabilities proto) w4) as (lc & w5 & E5 & F5 & H5 & S5).
  rewrite (bind_returns _ _ _ _ _ E5).
  destruct (assign_spec this "_capabilities" (VRef lc) w5) as (w6 & E6 & H6 & S6).
  rewrite E6.
  assert (lb ≠ this) as Nb.
  { intros ->. rewrite H2, H1, !lookup_setProp, decide_True in F3 by done. done. }
  assert (lc ≠ this) as Nc.
  { intros ->. rewrite H4, lookup_setProp, decide_True in F5 by done. done. }
  assert (lc ≠ lb) as Ncb.
  { intros ->. rewrite H4, lookup_setProp, decide_False, H3, lookup_insert_eq in F5 by done. done. }
  assert (heap w !! lb = None) as Fb.
  { by rewrite H2, H1, !lookup_setProp, !decide_False in F3. }
  assert (heap w !! lc = None) as Fc.
  { by rewrite H4, lookup_setProp, decide_False, H3, lookup_insert_ne, H2, H1,
      !lookup_setProp, !decide_False in F5. }
  exists lb, lc, (properties_of (heap w2) (proto_defaultBehaviors proto)),
    (properties_of (heap w4) (proto_defaultCapabilities proto)), w6.
  split_and!; try done.
  - apply map_eq. intros l.
    rewrite H6, lookup_setProp. case_decide as Hl.
    + subst l. rewrite !lookup_insert_ne, lookup_insert_eq by done. f_equal.
      unfold base_props. f_equal. unfold object_at.
      rewrite H5, lookup_insert_ne, H4, lookup_setProp, decide_True by done. simpl.
      f_equal. unfold object_at.
      rewrite H3, lookup_insert_ne, H2, lookup_setProp, decide_True by done. simpl.
      f_equal. unfold object_at.
      rewrite H1, lookup_setProp, decide_True by done. simpl.
      f_equal. unfold object_at. by rewrite Hthis.
    + rewrite H5. destruct (decide (l = lc)) as [->|].
      { by rewrite !lookup_insert_eq. }
      rewrite !(lookup_insert_ne _ lc) by done.
      rewrite H4, lookup_setProp, decide_False, H3 by done.
      destruct (decide (l = lb)) as [->|].
      { by rewrite !lookup_insert_eq. }
      rewrite !(lookup_insert_ne _ lb) by done.
      rewrite H2, H1, !lookup_setProp, !decide_False by done.
      by rewrite lookup_insert_ne.
  - intros lt -> Hlt _. simpl. unfold object_at.
    by rewrite H2, H1, !lookup_setProp, !decide_False.
  - intros lt -> Hlt [x Hx]. simpl. unfold object_at.
    assert (lt ≠ lb) by (intros ->; congruence).
    rewrite H4, lookup_setProp, decide_False, H3, lookup_insert_ne by done.
    by rewrite H2, H1, !lookup_setProp, !decide_False.
  - unfold same_outside_heap in *. intuition congruence.
Qed.

Lemma bind_assoc {A B C} (m : M A) (f : A → M B) (g : B → M C) w :
  ((m ≫= f) ≫= g) w = (m ≫= λ a, f a ≫= g) w.
Proof. unfold mbind, M_bind, bind. by destruct (m w) as [[a|e] w']. Qed.

Lemma initialize_tail env proto this la o options w0 w3 :
  heap w3 !! this = Some o →
  heap w3 !! la = Some options →
  la ≠ this →
  heap w0 !! this = None →
  heap w0 !! la = None →
  (∀ l, l ≠ this → l ≠ la → heap w3 !! l = heap w0 !! l) →
  same_outside_heap w0 w3 →
  ∃ lb lc B0 C0 w',
    B.initialize env proto (VRef this) options w3 = (Returns (), w') ∧
    NoDup [this; la; lb; lc] ∧
    (∀ l, l ∈ [this; la; lb; lc] → heap w0 !! l = None) ∧
    heap w' = <[lc := C0]> (<[lb := B0]> (<[this := base_props env options o lb lc]>
                (<[la := options]> (heap w0)))) ∧
    (∀ lt, proto_defaultBehaviors proto = VRef lt →
           is_Some (heap w0 !! lt) → B0 = object_at (heap w0) lt) ∧
    (∀ lt, proto_defaultCapabilities proto = VRef lt →
           is_Some (heap w0 !! lt) → C0 = object_at (heap w0) lt) ∧
    same_outside_heap w0 w'.
Proof.
  intros Hthis Hla Na Ft Fa Hframe S3.
  destruct (base_initialize_spec env proto this _ options w3 Hthis)
    as (lb & lc & B0 & C0 & w4 & E4 & Fb & Fc & Nbc & H4 & HB & HC & S4).
  assert (lb ≠ this) by (intros ->; congruence).
  assert (lc ≠ this) by (intros ->; congruence).
  assert (lb ≠ la) by (intros ->; congruence).
  assert (lc ≠ la) by (intros ->; congruence).
  exists lb, lc, B0, C0, w4. split_and!; try done.
  - repeat (apply NoDup_cons_2; [rewrite ?elem_of_cons, elem_of_nil; intuition congruence|]).
    apply NoDup_nil_2.
  - intros l Hl. rewrite !elem_of_cons in Hl.
    destruct Hl as [->|[->|[->|[->|Hl]]]]; try done.
    + by rewrite <- Hframe.
    + by rewrite <- Hframe.
    + by apply elem_of_nil in Hl.
  - rewrite H4. apply map_eq. intros l.
    destruct (decide (l = lc)) as [->|]; [by rewrite !lookup_insert_eq|].
    rewrite !(lookup_insert_ne _ lc) by done.
    destruct (decide (l = lb)) as [->|]; [by rewrite !lookup_insert_eq|].
    rewrite !(lookup_insert_ne _ lb) by done.
    destruct (decide (l = this)) as [->|]; [by rewrite !lookup_insert_eq|].
    rewrite !(lookup_insert_ne _ this) by done.
    destruct (decide (l = la)) as [->|]; [by rewrite lookup_insert_eq|].
    rewrite lookup_insert_ne by done. by apply Hframe.
  - intros lt Hlt Hs. assert (lt ≠ this) by (intros ->; destruct Hs; congruence).
    assert (lt ≠ la) by (intros ->; destruct Hs; congruence).
    rewrite (HB lt) by (rewrite ?Hframe; done). unfold object_at. by rewrite Hframe.
  - intros lt Hlt Hs. assert (lt ≠ this) by (intros ->; destruct Hs; congruence).
    assert (lt ≠ la) by (intros ->; destruct Hs; congruence).
    rewrite (HC lt) by (rewrite ?Hframe; done). unfold object_at. by rewrite Hframe.
  - unfold same_outside_heap in *. intuition congruence.
Qed.

Lemma construct_spec env proto options w :
  ∃ this la lb lc B0 C0 w',
    construct env proto options w = (Returns (VRef this), w') ∧
    NoDup [this; la; lb; lc] ∧
    (∀ l, l ∈ [this; la; lb; lc] → heap w !! l = None) ∧
    heap w' = <[lc := C0]> (<[lb := B0]> (<[this := instance_props env (kind proto) options la lb lc]>
                (<[la := options]> (heap w)))) ∧
    (∀ lt, proto_defaultBehaviors proto = VRef lt →
           is_Some (heap w !! lt) → B0 = object_at (heap w) lt) ∧
    (∀ lt, proto_defaultCapabilities proto = VRef lt →
           is_Some (heap w !! lt) → C0 = object_at (heap w) lt) ∧
    same_outside_heap w w'.
Proof.
  unfold construct.
  destruct (new_object_spec ∅ w) as (this & w1 & E1 & F1 & H1 & S1).
  rewrite (bind_returns _ _ _ _ _ E1).
  destruct (new_object_spec options w1) as (la & w2 & E2 & F2 & H2 & S2).
  rewrite (bind_returns _ _ _ _ _ E2).
  destruct (assign_spec this "attributes" (VRef la) w2) as (w3 & E3 & H3 & S3).
  rewrite (bind_returns _ _ _ _ _ E3).
  assert (la ≠ this) as Na.
  { intros ->. by rewrite H1, lookup_insert_eq in F2. }
  assert (heap w3 !! this = Some ({[ "attributes" := VRef la ]} : Obj)) as Hthis.
  { rewrite H3, lookup_setProp, decide_True by done. f_equal. unfold object_at.
    by rewrite H2, lookup_insert_ne, H1, lookup_insert_eq. }
  assert (∀ l, l ≠ this → l ≠ la → heap w3 !! l = heap w !! l) as Hframe.
  { intros l ? ?. by rewrite H3, lookup_setProp, decide_False, H2, lookup_insert_ne,
      H1, lookup_insert_ne. }
  assert (heap w3 !! la = Some options) as Hla.
  { by rewrite H3, lookup_setProp, decide_False, H2, lookup_insert_eq. }
  assert (heap w !! la = None) as Fa.
  { by rewrite H1, lookup_insert_ne in F2. }
  assert (same_outside_heap w w3) as S.
  { unfold same_outside_heap in *. intuition congruence. }
  destruct (kind proto) eqn:Hk.
  - destruct (initialize_tail env proto this la _ options w w3 Hthis Hla Na F1 Fa Hframe S)
      as (lb & lc & B0 & C0 & w4 & E4 & ?).
    rewrite (bind_returns _ _ _ _ _ E4).
    by exists this, la, lb, lc, B0, C0, w4.
  - unfold O.initialize. rewrite !bind_assoc.
    destruct (assign_spec this "session" (default VUndefined (options !! "session")) w3)
      as (w4 & E4 & H4 & S4).
    rewrite (bind_returns _ _ _ _ _ E4), !bind_assoc.
    destruct (assign_spec this "_assertionLibrary"
      (default VUndefined (options !! "assertionLibrary")) w4) as (w5 & E5 & H5 & S5).
    rewrite (bind_returns _ _ _ _ _ E5), !bind_assoc.
    destruct (assign_spec this "_oAuthClient"
      (default VUndefined (options !! "oAuthClient")) w5) as (w6 & E6 & H6 & S6).
    rewrite (bind_returns _ _ _ _ _ E6).
    assert (heap w6 !! this = Some (oauth_props options {[ "attributes" := VRef la ]})) as Hthis'.
    { rewrite H6, lookup_setProp, decide_True by done. unfold oauth_props. do 2 f_equal.
      unfold object_at. rewrite H5, lookup_setProp, decide_True by done. simpl. f_equal.
      unfold object_at. rewrite H4, lookup_setProp, decide_True by done. simpl. f_equal.
      unfold object_at. by rewrite Hthis. }
    assert (∀ l, l ≠ this → heap w6 !! l = heap w3 !! l) as Hframe'.
    { intros l ?. by rewrite H6, H5, H4, !lookup_setProp, !decide_False. }
    assert (same_outside_heap w w6) as S'.
    { unfold same_outside_heap in *. intuition congruence. }
    destruct (initialize_tail env proto this la _ options w w6 Hthis') as
      (lb & lc & B0 & C0 & w7 & E7 & ?); try done.
    { by rewrite Hframe'. }
    { intros. rewrite Hframe' by done. by apply Hframe. }
    rewrite (bind_returns _ _ _ _ _ E7).
    by exists this, la, lb, lc, B0, C0, w7.
Qed.

(** ** The registries of an instance *)

Lemma invoke_registry_op env k this lb lc B C op w :
  instance (heap w) this lb lc B C →
  ∃ w', invoke env k (VRef this) (method_of op) w = (Returns VUndefined, w') ∧
        heap w' = <[lc := capabilities_after op C]> (<[lb := behaviors_after op B]> (heap w)) ∧
        same_outside_heap w w'.
Proof.
  intros (Hb & Hc & HB & HC & Nb & Nc & Nbc).
  destruct op as [n v|n v|n]; destruct k; simpl;
    unfold B.setBehavior, B.setCapability, B.unsetCapability;
    (erewrite bind_returns; [| simpl; by rewrite ?Hb, ?Hc]);
    simpl; unfold mbind, M_bind, bind; simpl; destruct (Model.own_key n);
    eexists; (split; [done|]); (split; [|done]); simpl;
    unfold setProp, delProp, object_at; rewrite ?HB, ?HC; simpl;
    apply map_eq; intros l;
    repeat (rewrite lookup_insert; case_decide; subst; try done).
Qed.

Lemma instance_after env k this lb lc B C op w :
  instance (heap w) this lb lc B C →
  instance (heap (invoke env k (VRef this) (method_of op) w).2) this lb lc
    (behaviors_after op B) (capabilities_after op C).
Proof.
  intros Hi. destruct (invoke_registry_op env k this lb lc B C op w Hi) as (w' & -> & H & _).
  destruct Hi as (Hb & Hc & HB & HC & Nb & Nc & Nbc). simpl.
  rewrite H. unfold instance, getProp.
  rewrite !(lookup_insert_ne _ _ this) by done.
  rewrite lookup_insert_eq, lookup_insert_ne, lookup_insert_eq by done.
  done.
Qed.

Lemma instance_run_on env k this lb lc B C ops w :
  instance (heap w) this lb lc B C →
  instance (heap (run_on env k (VRef this) ops w)) this lb lc
    (behaviors_of ops B) (capabilities_of ops C).
Proof.
  revert w B C. induction ops as [|op ops IH]; intros w B C Hi; [done|].
  unfold run_on, after_calls. simpl. apply IH. by apply instance_after.
Qed.

Lemma getAttr_lookup (h : Heap) l o attr :
  h !! l = Some o → Model.getAttr h l attr = Model.read o attr.
Proof.
  intros H. unfold Model.getAttr, Model.read, getProp, object_at. rewrite H. simpl.
  by destruct (Model.inherited attr).
Qed.

Lemma instance_getBehavior this lb lc B C name w :
  instance (heap w) this lb lc B C →
  B.getBehavior (VRef this) name w =
    (let v := Model.read B name in
     if not_nullish v then Returns v
     else Fails (JSError ("behavior not found for: " +:+ name)), w).
Proof.
  intros (Hb & Hc & HB & HC & _). unfold B.getBehavior.
  erewrite bind_returns; [| simpl; by rewrite Hb].
  erewrite bind_returns;
    [| unfold Model.has; erewrite bind_returns;
         [done | simpl; by rewrite (getAttr_lookup _ _ _ _ HB)]].
  destruct (not_nullish _) eqn:E; simpl; [|done].
  erewrite bind_returns; [| simpl; by rewrite Hb].
  simpl. by rewrite (getAttr_lookup _ _ _ _ HB).
Qed.

Lemma instance_getCapability this lb lc B C name w :
  instance (heap w) this lb lc B C →
  B.getCapability (VRef this) name w = (Returns (Model.read C name), w).
Proof.
  intros (Hb & Hc & HB & HC & _). unfold B.getCapability.
  erewrite bind_returns; [| simpl; by rewrite Hc].
  simpl. by rewrite (getAttr_lookup _ _ _ _ HC).
Qed.

Lemma truthy_not_nullish v : not_nullish v = false → truthy v = false.
Proof. by destruct v. Qed.

Lemma instance_hasCapability this lb lc B C name w :
  instance (heap w) this lb lc B C →
  B.hasCapability (VRef this) name w
    = (Returns (VBool (truthy (Model.read C name))), w).
Proof.
  intros (Hb & Hc & HB & HC & _). unfold B.hasCapability.
  erewrite bind_returns; [| simpl; by rewrite Hc].
  erewrite bind_returns;
    [| unfold Model.has; erewrite bind_returns;
         [done | simpl; by rewrite (getAttr_lookup _ _ _ _ HC)]].
  destruct (not_nullish _) eqn:E; simpl.
  - erewrite bind_returns; [| simpl; by rewrite Hc].
    erewrite bind_returns; [| simpl; by rewrite (getAttr_lookup _ _ _ _ HC)]. done.
  - by rewrite truthy_not_nullish.
Qed.

Lemma construct_instance env proto options w :
  ∃ this lb lc B0 C0 w',
    construct env proto options w = (Returns (VRef this), w') ∧
    instance (heap w') this lb lc B0 C0 ∧
    (∀ l, l ∈ [this; lb; lc] → heap w !! l = None) ∧
    (∀ l, is_Some (heap w !! l) → heap w' !! l = heap w !! l) ∧
    (∀ lt, proto_defaultBehaviors proto = VRef lt →
           is_Some (heap w !! lt) → B0 = object_at (heap w) lt) ∧
    (∀ lt, proto_defaultCapabilities proto = VRef lt →
           is_Some (heap w !! lt) → C0 = object_at (heap w) lt) ∧
    same_outside_heap w w'.
Proof.
  destruct (construct_spec env proto options w)
    as (this & la & lb & lc & B0 & C0 & w' & E & ND & F & H & HB & HC & S).
  exists this, lb, lc, B0, C0, w'.
  apply NoDup_cons in ND as [N1 ND]. apply NoDup_cons in ND as [N2 ND].
  apply NoDup_cons in ND as [N3 _].
  rewrite ?elem_of_cons, ?elem_of_nil in N1.
  rewrite ?elem_of_cons, ?elem_of_nil in N2.
  rewrite ?elem_of_cons, ?elem_of_nil in N3.
  split_and!; try done.
  - rewrite H. unfold instance, getProp.
    rewrite !(lookup_insert_ne _ _ this), lookup_insert_eq by intuition congruence.
    rewrite lookup_insert_eq, lookup_insert_ne, lookup_insert_eq by intuition congruence.
    split_and!; try (intuition congruence).
    + unfold instance_props, base_props. by rewrite lookup_insert_ne, lookup_insert_eq.
    + unfold instance_props, base_props. by rewrite lookup_insert_eq.
  - intros l Hl. apply F. rewrite !elem_of_cons in *. intuition.
  - intros l [x Hx]. rewrite H.
    rewrite !lookup_insert_ne; [done|..]; intros ->;
      rewrite F in Hx; try done; rewrite !elem_of_cons; intuition.
Qed.

Lemma instance_allocated h this lb lc B C :
  instance h this lb lc B C → is_Some (h !! this) ∧ is_Some (h !! lb) ∧ is_Some (h !! lc).
Proof.
  intros (Hb & _ & HB & HC & _). split_and!; eauto.
  unfold getProp in Hb. destruct (h !! this); [eauto | done].
Qed.

Lemma instance_frame (h h' : Heap) this lb lc B C :
  instance h this lb lc B C →
  h' !! this = h !! this → h' !! lb = h !! lb → h' !! lc = h !! lc →
  instance h' this lb lc B C.
Proof.
  intros (Hb & Hc & HB & HC & N) E1 E2 E3. unfold instance, getProp in *.
  rewrite E1, E2, E3. done.
Qed.

Lemma two_instances_step env k a lbA lcA BA CA b lbB lcB BB CB op w :
  instance (heap w) a lbA lcA BA CA →
  instance (heap w) b lbB lcB BB CB →
  NoDup [a; lbA; lcA; b; lbB; lcB] →
  let w' := (invoke env k (VRef a) (method_of op) w).2 in
  instance (heap w') a lbA lcA (behaviors_after op BA) (capabilities_after op CA) ∧
  instance (heap w') b lbB lcB BB CB.
Proof.
  intros HA HB ND w'. split; [by apply instance_after|].
  subst w'. destruct (invoke_registry_op env k a lbA lcA BA CA op w HA) as (w' & -> & H & _).
  simpl. apply (instance_frame (heap w)); [done|..]; rewrite H;
    rewrite !lookup_insert_ne; try done; intros ->;
    repeat (apply NoDup_cons in ND as [? ND]); set_solver.
Qed.

Lemma ops_for_cons first x l :
  ops_for first (x :: l) = if decide (x.1 = first) then x.2 :: ops_for first l else ops_for first l.
Proof. unfold ops_for. rewrite filter_cons. by case_decide. Qed.

Lemma NoDup_swap3 (a lbA lcA b lbB lcB : loc) :
  NoDup [a; lbA; lcA; b; lbB; lcB] → NoDup [b; lbB; lcB; a; lbA; lcA].
Proof.
  intros H. change (NoDup ([b; lbB; lcB] ++ [a; lbA; lcA])).
  by rewrite (Permutation_app_comm [b; lbB; lcB] [a; lbA; lcA]).
Qed.

Lemma two_instances_run env kA a lbA lcA kB b lbB lcB l :
  NoDup [a; lbA; lcA; b; lbB; lcB] →
  ∀ w BA CA BB CB,
    instance (heap w) a lbA lcA BA CA →
    instance (heap w) b lbB lcB BB CB →
    let w' := run_both env kA (VRef a) kB (VRef b) l w in
    instance (heap w') a lbA lcA
      (behaviors_of (ops_for true l) BA) (capabilities_of (ops_for true l) CA) ∧
    instance (heap w') b lbB lcB
      (behaviors_of (ops_for false l) BB) (capabilities_of (ops_for false l) CB).
Proof.
  intros ND. induction l as [|[first op] l IH]; intros w BA CA BB CB HA HB; [done|].
  unfold run_both. simpl. rewrite !ops_for_cons. simpl.
  destruct first; simpl.
  - destruct (two_instances_step env kA a lbA lcA BA CA b lbB lcB BB CB op w HA HB ND).
    by apply IH.
  - destruct (two_instances_step env kB b lbB lcB BB CB a lbA lcA BA CA op w HB HA
                (NoDup_swap3 _ _ _ _ _ _ ND)).
    by apply IH.
Qed.

(** ** The broker's own object *)

Section Untouched.
Context (env : Env) (this : loc) (o : Obj) (Hg : guarded this o).

Definition stable {A} (m : M A) : Prop :=
  triple (untouched this o) m (λ _, untouched this o) (untouched this o).

Lemma stable_keeps {A} (m : M A) : keeps heap m → stable m.
Proof.
  intros Hk w Hw. specialize (Hk w). unfold untouched in *.
  destruct (m w) as [[a|e] w']; simpl in *; by rewrite Hk.
Qed.

Lemma stable_bind {A B} (m : M A) (f : A → M B) :
  stable m → (∀ a, stable (f a)) → stable (m ≫= f).
Proof. intros Hm Hf. eapply triple_bind; [exact Hm | exact Hf]. Qed.

Lemma stable_ret {A} (a : A) : stable (mret a).
Proof. by intros w Hw. Qed.

Lemma stable_throw {A} e : stable (@throw A e).
Proof. by intros w Hw. Qed.

(** Reading a property of the broker gives what [o] holds. *)
Lemma member_this k :
  triple (untouched this o) (member (VRef this) k)
    (λ a w, untouched this o w ∧ a = default VUndefined (o !! k)) (untouched this o).
Proof. intros w Hw. simpl. unfold getProp. unfold untouched in Hw. by rewrite Hw. Qed.

Lemma bind_member_this {B} k (f : JSValue → M B) :
  stable (f (default VUndefined (o !! k))) → stable (member (VRef this) k ≫= f).
Proof.
  intros Hf. eapply triple_bind; [apply member_this|].
  intros a w [Hw ->]. by apply Hf.
Qed.

Lemma untouched_write (f : Heap → Heap) l w :
  l ≠ this → (∀ h, f h !! this = h !! this) → untouched this o w →
  untouched this o (set_heap f w).
Proof. intros ? Hf Hw. unfold untouched in *. simpl. by rewrite Hf. Qed.

Lemma stable_Model_set v n x : v ≠ VRef this → stable (Model.set v n x).
Proof.
  intros Hv w Hw. destruct v; try done. simpl. destruct (Model.own_key n); [|done].
  unfold untouched in *. simpl.
  rewrite lookup_setProp_ne; [done | congruence].
Qed.

Lemma stable_Model_unset v n : v ≠ VRef this → stable (Model.unset v n).
Proof.
  intros Hv w Hw. destruct v; try done. simpl. destruct (Model.own_key n); [|done].
  unfold untouched in *. simpl.
  rewrite lookup_delProp_ne; [done | congruence].
Qed.

Lemma stable_Model_setAll v attrs : v ≠ VRef this → stable (Model.setAll v attrs).
Proof.
  intros Hv w Hw. destruct v; try done. simpl. unfold untouched in *. simpl.
  rewrite lookup_extendProps_ne; [done | congruence].
Qed.

Lemma stable_assign v k x : v ≠ VRef this → stable (assign v k x).
Proof.
  intros Hv w Hw. destruct v; try done. simpl. unfold untouched in *. simpl.
  rewrite lookup_setProp_ne; [done | congruence].
Qed.

Lemma stable_extend v src : v ≠ VRef this → stable (extend v src).
Proof.
  intros Hv w Hw. destruct v; try done. simpl. unfold untouched in *. simpl.
  rewrite lookup_extendProps_ne; [done | congruence].
Qed.

Lemma registry_not_this k :
  k ∈ ["_behaviors"; "_capabilities"; "attributes"] →
  default VUndefined (o !! k) ≠ VRef this.
Proof.
  destruct Hg as (_ & H1 & H2 & H3).
  rewrite !elem_of_cons, elem_of_nil. intros [->|[->|[->|[]]]];
    match goal with |- default _ ?x ≠ _ => destruct x eqn:E end; simpl; congruence.
Qed.

(** [m] leaves the broker's object alone and returns a value in [φ]. *)
Definition stable_to {A} (φ : A → Prop) (m : M A) : Prop :=
  triple (untouched this o) m (λ a w, untouched this o w ∧ φ a) (untouched this o).

Lemma stable_to_ret {A} (φ : A → Prop) (a : A) : φ a → stable_to φ (mret a).
Proof. by intros Ha w Hw. Qed.

Lemma stable_to_throw {A} (φ : A → Prop) e : stable_to φ (throw e).
Proof. by intros w Hw. Qed.

Lemma stable_to_bind {A B} (φ : B → Prop) (m : M A) (f : A → M B) :
  stable m → (∀ a, stable_to φ (f a)) → stable_to φ (m ≫= f).
Proof. intros Hm Hf. eapply triple_bind; [exact Hm | exact Hf]. Qed.

Lemma stable_to_use {A B} (φ : A → Prop) (m : M A) (f : A → M B) :
  stable_to φ m → (∀ a, φ a → stable (f a)) → stable (m ≫= f).
Proof.
  intros Hm Hf. eapply triple_bind; [exact Hm|].
  intros a w [Hw Ha]. by apply Hf.
Qed.

Lemma stable_to_stable {A} (φ : A → Prop) (m : M A) : stable_to φ m → stable m.
Proof. intros Hm. eapply triple_weaken; [exact Hm | done | by intros a w [? _]]. Qed.

End Untouched.

Create HintDb stable discriminated.
#[export] Hint Resolve stable_ret stable_throw stable_to_throw : stable.

(** Splits a goal [stable this o m] along the structure of [m]. *)
Ltac stable_steps :=
  repeat match goal with
    | |- stable _ _ (mret _) => apply stable_ret
    | |- stable _ _ (throw _) => apply stable_throw
    | |- stable_to _ _ _ (throw _) => apply stable_to_throw
    | |- stable ?t _ (member (VRef ?t) _ ≫= _) => apply bind_member_this
    | |- stable _ _ (_ ≫= _) => apply stable_bind; [| intros ?]
    | |- stable_to _ _ _ (_ ≫= _) => apply stable_to_bind; [| intros ?]
    | |- stable _ _ (if ?b then _ else _) => destruct b
    | |- stable _ _ (match ?x with _ => _ end) => destruct x
    | |- stable_to _ _ _ (if ?b then _ else _) => destruct b
    | |- stable_to _ _ _ (match ?x with _ => _ end) => destruct x
    | |- stable _ _ _ => apply stable_keeps; solve [keeps_steps]
    end.

Section Methods.
Context (env : Env) (this : loc) (o : Obj) (Hg : guarded this o).

Lemma stable_formatOAuthResult result :
  stable_to this o (λ a, a ≠ VRef this) (O._formatOAuthResult env result).
Proof.
  destruct (decide (result = VRef this)) as [->|Hne].
  - intros w Hw. unfold O._formatOAuthResult. simpl.
    unfold mbind, M_bind, bind. simpl. unfold getProp.
    unfold untouched in Hw. rewrite Hw. destruct Hg as (-> & _). done.
  - unfold O._formatOAuthResult. stable_steps.
    + by apply stable_assign.
    + by apply stable_assign.
    + by apply stable_to_ret.
Qed.

Lemma stable_getOAuthResult account :
  stable_to this o (λ a, a ≠ VRef this) (O.getOAuthResult env (VRef this) account).
Proof. unfold O.getOAuthResult. stable_steps. apply stable_formatOAuthResult. Qed.

Lemma stable_finishOAuthFlow account additionalResultData :
  stable this o (O.finishOAuthFlow env (VRef this) account additionalResultData).
Proof.
  unfold O.finishOAuthFlow. apply bind_member_this.
  apply stable_bind; [apply stable_keeps; keeps_steps | intros _].
  eapply stable_to_use; [apply stable_getOAuthResult|].
  intros result Hr.
  apply stable_bind; [by apply stable_extend | intros r; apply stable_throw].
Qed.

Lemma stable_getBehavior name : stable this o (B.getBehavior (VRef this) name).
Proof. unfold B.getBehavior. stable_steps. Qed.

Lemma stable_unpersistVerificationData account :
  stable this o (B.unpersistVerificationData (VRef this) account).
Proof. apply stable_keeps, keeps_heap_unpersistVerificationData. Qed.

Lemma stable_invoke k m : stable this o (invoke env k (VRef this) m).
Proof.
  destruct m, k; simpl;
    unfold O.afterSignIn, O.afterSignInConfirmationPoll, O.afterForceAuth,
      O.afterSignUpConfirmationPoll, O.afterResetPasswordConfirmationPoll,
      O.finishOAuthSignInFlow, O.finishOAuthSignUpFlow, O.sendOAuthResultToRelier,
      O.transformLink,
      B.setBehavior, B.canCancel, B.cancel, B.afterLoaded, B.beforeSignIn,
      B.afterSignIn, B.afterSignInConfirmationPoll, B.afterForceAuth, B.afterSignUp,
      B.beforeSignUpConfirmationPoll, B.afterSignUpConfirmationPoll,
      B.afterCompleteSignUp, B.afterResetPasswordConfirmationPoll,
      B.afterCompleteResetPassword, B.afterChangePassword, B.afterDeleteAccount,
      B.transformLink, B.isForceAuth, B.isAutomatedBrowser, B.hasCapability,
      B.setCapability, B.unsetCapability, B.getCapability;
    try apply stable_getBehavior;
    try apply stable_finishOAuthFlow;
    try apply stable_unpersistVerificationData;
    try (apply (stable_to_stable _ _ _ _ (stable_getOAuthResult _)));
    try (apply stable_keeps; first [ apply keeps_heap_base_persistVerificationData
                                   | apply keeps_heap_oauth_persistVerificationData ]);
    stable_steps;
    try apply stable_getBehavior;
    try apply stable_finishOAuthFlow;
    try apply stable_unpersistVerificationData;
    try (apply stable_Model_set; apply registry_not_this; [done | set_solver]);
    try (apply stable_Model_unset; apply registry_not_this; [done | set_solver]).
Qed.

End Methods.

Lemma guarded_isForceAuth this o v : guarded this o → guarded this (<["_isForceAuth" := v]> o).
Proof.
  intros (H1 & H2 & H3 & H4). unfold guarded. by rewrite !lookup_insert_ne.
Qed.

Lemma stable_importSearchParamsUsingSchema env this o :
  guarded this o → stable this o (B.importSearchParamsUsingSchema env (VRef this)).
Proof.
  intros Hg. unfold B.importSearchParamsUsingSchema. stable_steps.
  apply stable_Model_setAll, registry_not_this; [done | set_solver].
Qed.

Lemma untouched_after env k this o ms w :
  guarded this o → untouched this o w →
  untouched this o (after_calls env k (VRef this) ms w).
Proof.
  intros Hg. revert w. induction ms as [|m ms IH]; intros w Hw; [done|].
  unfold after_calls. simpl. apply IH.
  pose proof (stable_invoke env this o Hg k m w Hw) as H.
  by destruct (invoke env k (VRef this) m w) as [[a|e] w'].
Qed.

(** What [fetch] does to the broker's object: nothing, or it sets
    [_isForceAuth]. *)
Lemma fetch_object env this o w :
  guarded this o → untouched this o w →
  untouched this o (B.fetch env (VRef this) w).2 ∨
  ∃ v, untouched this (<["_isForceAuth" := v]> o) (B.fetch env (VRef this) w).2.
Proof.
  intros Hg Hw. unfold B.fetch.
  assert (keeps heap (B._isForceAuthUrl (VRef this))) as Hk.
  { unfold B._isForceAuthUrl. keeps_steps. }
  specialize (Hk w).
  destruct (B._isForceAuthUrl (VRef this) w) as [[v|e] w1] eqn:E; simpl in Hk.
  - right. exists v.
    assert (untouched this (<["_isForceAuth" := v]> o)
              (set_heap (setProp this "_isForceAuth" v) w1)) as Hw1.
    { unfold untouched in *. simpl. rewrite lookup_setProp_eq. unfold object_at.
      by rewrite Hk, Hw. }
    rewrite (bind_returns _ _ _ _ _ E).
    erewrite bind_returns; [| done].
    pose proof (stable_bind this _ _ _
      (stable_importSearchParamsUsingSchema env this _ (guarded_isForceAuth _ _ v Hg))
      (λ _, stable_ret this _ VUndefined) _ Hw1) as H.
    match goal with |- untouched _ _ (?m ?w).2 => destruct (m w) as [[a|e] w'] end; done.
  - left. rewrite (bind_fails _ _ _ _ _ E). simpl. unfold untouched in *. by rewrite Hk.
Qed.

Lemma guarded_after_steps env k this o ss w :
  guarded this o → untouched this o w →
  ∃ o', guarded this o' ∧ untouched this o' (run env k (VRef this) ss w) ∧
        ∀ key, key ≠ "_isForceAuth" → o' !! key = o !! key.
Proof.
  revert o w. induction ss as [|s ss IH]; intros o w Hg Hw; [by exists o|].
  unfold run. simpl. destruct s as [|m]; simpl.
  - destruct (fetch_object env this o w Hg Hw) as [H|[v H]].
    + by apply IH.
    + destruct (IH _ _ (guarded_isForceAuth _ _ v Hg) H) as (o' & ? & ? & Hk).
      exists o'. split_and!; try done. intros key Hkey.
      by rewrite Hk, lookup_insert_ne.
  - apply IH; [done|].
    pose proof (stable_invoke env this o Hg k m w Hw) as H.
    by destruct (invoke env k (VRef this) m w) as [[a|e] w'].
Qed.

Lemma fetch_caches env this o lw ll w :
  guarded this o → untouched this o w →
  getProp (heap w) this "window" = VRef lw →
  getProp (heap w) lw "location" = VRef ll →
  let pathname := getProp (heap w) ll "pathname" in
  untouched this
    (<["_isForceAuth" := VBool (bool_decide (pathname = VStr "/force_auth"
                                             ∨ pathname = VStr "/oauth/force_auth"))]> o)
    (B.fetch env (VRef this) w).2.
Proof.
  intros Hg Hw Hwin Hloc pathname. unfold B.fetch.
  erewrite bind_returns; cycle 1.
  { unfold B._isForceAuthUrl.
    erewrite bind_returns; [| simpl; by rewrite Hwin].
    erewrite bind_returns; [| simpl; by rewrite Hloc].
    erewrite bind_returns; [| simpl; done]. done. }
  fold pathname.
  set (b := strict_eq pathname (VStr "/force_auth") || strict_eq pathname (VStr "/oauth/force_auth")).
  assert (bool_decide (pathname = VStr "/force_auth" ∨ pathname = VStr "/oauth/force_auth") = b)
    as ->.
  { unfold b, strict_eq. repeat case_bool_decide; simpl; intuition. }
  assert (untouched this (<["_isForceAuth" := VBool b]> o)
            (set_heap (setProp this "_isForceAuth" (VBool b)) w)) as Hw1.
  { unfold untouched in *. simpl. rewrite lookup_setProp_eq. unfold object_at. by rewrite Hw. }
  erewrite bind_returns; [| done].
  pose proof (stable_bind this _ _ _
    (stable_importSearchParamsUsingSchema env this _ (guarded_isForceAuth _ _ (VBool b) Hg))
    (λ _, stable_ret this _ VUndefined) _ Hw1) as H.
  match goal with |- untouched _ _ (?m ?w).2 => destruct (m w) as [[a|e] w'] end; done.
Qed.

Lemma isForceAuth_reads this o w :
  untouched this o w →
  B.isForceAuth (VRef this) w
    = (Returns (VBool (truthy (default VUndefined (o !! "_isForceAuth")))), w).
Proof.
  intros Hw. unfold B.isForceAuth, mbind, M_bind, bind. simpl.
  unfold getProp. unfold untouched in Hw. by rewrite Hw.
Qed.

Ltac lookup_props :=
  repeat first
    [ rewrite lookup_insert_eq
    | rewrite lookup_insert_ne by done
    | rewrite lookup_singleton_eq
    | rewrite lookup_singleton_ne by done ].

Lemma construct_guarded env proto options w :
  ∃ this o w',
    construct env proto options w = (Returns (VRef this), w') ∧
    untouched this o w' ∧ guarded this o ∧ o !! "_isForceAuth" = None.
Proof.
  destruct (construct_spec env proto options w)
    as (this & la & lb & lc & B0 & C0 & w' & E & ND & F & H & _).
  apply NoDup_cons in ND as [N1 _].
  rewrite ?elem_of_cons, ?elem_of_nil in N1.
  exists this, (instance_props env (kind proto) options la lb lc), w'.
  split_and!; [done|..].
  - unfold untouched. rewrite H.
    by rewrite !(lookup_insert_ne _ _ this), lookup_insert_eq by intuition congruence.
  - unfold guarded, instance_props, base_props, oauth_props.
    destruct (kind proto); split_and!; lookup_props; try done;
      intros [= ->]; intuition congruence.
  - unfold instance_props, base_props, oauth_props.
    destruct (kind proto); by lookup_props.
Qed.

(** ** The declared tables *)


Lemma oauth_define_spec proto w :
  ∃ l3 l4 w',
    O.define proto w = (Returns (mkPrototype OAuth (VRef l3) (VRef l4)), w') ∧
    heap w !! l3 = None ∧ heap w !! l4 = None ∧ l3 ≠ l4 ∧
    heap w' =
      <[l4 := O.capabilityOverrides ∪ properties_of (heap w) (proto_defaultCapabilities proto)]>
        (<[l3 := O.behaviorOverrides ∪ properties_of (heap w) (proto_defaultBehaviors proto)]>
           (heap w)).
Proof.
  unfold O.define.
  destruct (new_object_spec
    (O.behaviorOverrides ∪ properties_of (heap w) (proto_defaultBehaviors proto)) w)
    as (l3 & w3 & E3 & F3 & H3 & _).
  rewrite (bind_returns _ _ _ _ _ E3).
  destruct (new_object_spec
    (O.capabilityOverrides ∪ properties_of (heap w) (proto_defaultCapabilities proto)) w3)
    as (l4 & w4 & E4 & F4 & H4 & _).
  rewrite (bind_returns _ _ _ _ _ E4).
  assert (l3 ≠ l4) by (intros ->; by rewrite H3, lookup_insert_eq in F4).
  exists l3, l4, w4. split_and!; try done.
  - by rewrite H3, lookup_insert_ne in F4.
  - by rewrite H4, H3.
Qed.

Lemma define_classes_spec w :
  ∃ base oauth w',
    define_classes w = (Returns (base, oauth), w') ∧
    kind base = Base ∧ kind oauth = OAuth ∧
    ∀ proto, proto ∈ [base; oauth] →
      ∃ lb lc,
        proto_defaultBehaviors proto = VRef lb ∧
        heap w' !! lb = Some (declaredBehaviors (kind proto)) ∧
        proto_defaultCapabilities proto = VRef lc ∧
        heap w' !! lc = Some (declaredCapabilities (kind proto)).
Proof.
  unfold define_classes, B.define. rewrite !bind_assoc.
  destruct (new_object_spec B.defaultBehaviors w) as (l1 & w1 & E1 & F1 & H1 & _).
  rewrite (bind_returns _ _ _ _ _ E1), !bind_assoc.
  destruct (new_object_spec B.defaultCapabilities w1) as (l2 & w2 & E2 & F2 & H2 & _).
  rewrite (bind_returns _ _ _ _ _ E2).
  assert (l2 ≠ l1) by (intros ->; by rewrite H1, lookup_insert_eq in F2).
  assert (heap w2 !! l1 = Some B.defaultBehaviors) as T1.
  { by rewrite H2, lookup_insert_ne, H1, lookup_insert_eq. }
  assert (heap w2 !! l2 = Some B.defaultCapabilities) as T2.
  { by rewrite H2, lookup_insert_eq. }
  erewrite bind_returns; [| reflexivity].
  destruct (oauth_define_spec (mkPrototype Base (VRef l1) (VRef l2)) w2)
    as (l3 & l4 & w4 & E4 & F3 & F4 & N34 & H4).
  rewrite (bind_returns _ _ _ _ _ E4).
  assert (l3 ≠ l1) by (intros ->; congruence).
  assert (l3 ≠ l2) by (intros ->; congruence).
  assert (l4 ≠ l1) by (intros ->; congruence).
  assert (l4 ≠ l2) by (intros ->; congruence).
  eexists _, _, _. split; [reflexivity|]. split_and!; [done|done|].
  intros proto. rewrite !elem_of_cons, elem_of_nil. intros [->|[->|[]]]; simpl.
  - exists l1, l2. by rewrite H4, !lookup_insert_ne.
  - exists l3, l4. rewrite H4, lookup_insert_eq, lookup_insert_ne, lookup_insert_eq by done.
    simpl. unfold object_at. by rewrite T1, T2.
Qed.


(** ** Verification data and OAuth results *)

Lemma unpersistVerificationData_deletes env k this la w :
  invoke env k this (unpersistVerificationData (VRef la)) w
    = (Returns VUndefined,
       set_storage (delete ("context", getProp (heap w) la "uid")) w).
Proof. by destruct k. Qed.

Lemma keeps_heap_invoke_persist env k this account :
  keeps heap (invoke env k this (persistVerificationData account)).
Proof.
  destruct k; simpl;
    [apply keeps_heap_base_persistVerificationData
    |apply keeps_heap_oauth_persistVerificationData].
Qed.

Lemma formatOAuthResult_string_redirect env l s w :
  getProp (heap w) l "redirect" = VStr s →
  s ≠ "" →
  let redirectParams := from_option VStr VUndefined (split_on "?" s !! 1%nat) in
  let state := Url_searchParam env "state" redirectParams in
  let code := Url_searchParam env "code" redirectParams in
  let w' := set_heap (setProp l "code" code ∘ setProp l "state" state) w in
  O._formatOAuthResult env (VRef l) w =
    (if Validate_isOAuthCodeValid env code
     then Returns (VRef l)
     else Fails (OAuthError "INVALID_RESULT_CODE"), w').
Proof.
  intros Hr Hs redirectParams state code w'.
  unfold O._formatOAuthResult. simpl.
  assert (truthy (VStr s) = true) as Ht.
  { simpl. apply negb_true_iff. by apply String.eqb_neq. }
  erewrite bind_returns; [| simpl; by rewrite Hr].
  rewrite Ht. simpl.
  erewrite bind_returns; [| simpl; by rewrite Hr].
  erewrite bind_returns; [| done].
  fold redirectParams. fold state. fold code.
  erewrite bind_returns; [| done].
  erewrite bind_returns; [| done].
  erewrite bind_returns; [| simpl; by rewrite getProp_setProp_eq].
  by destruct (Validate_isOAuthCodeValid env code).
Qed.

Lemma has_sessionToken_false w account :
  no_session_credential w account →
  O.has_sessionToken account w = (Returns false, w).
Proof.
  intros [H | (l & -> & H)]; unfold O.has_sessionToken.
  - by rewrite H.
  - simpl. unfold mbind, M_bind, bind. simpl. by rewrite H.
Qed.

(** ** The claims *)

(** C1. [getOAuthResult] on an account that is null, or that has no
    [sessionToken] (or a falsy one), fails with the INVALID_TOKEN error
    and leaves the world as it was: in particular neither [generate]
    nor [getCode] has been called. *)
Theorem getOAuthResult_invalid_token env this account w :
  no_session_credential w account →
  O.getOAuthResult env this account w = (Fails (AuthError "INVALID_TOKEN"), w) ∧
  calls (O.getOAuthResult env this account w).2 = calls w.
Proof.
  intros H. unfold O.getOAuthResult.
  rewrite (bind_returns _ _ _ _ _ (has_sessionToken_false _ _ H)). done.
Qed.

Lemma getOAuthResult_invalid_token_witness :
  O.getOAuthResult Examples.env (VRef 18%positive) (VRef 8%positive) Examples.world
    = (Fails (AuthError "INVALID_TOKEN"), Examples.world) ∧
  calls (O.getOAuthResult Examples.env (VRef 18%positive) (VRef 8%positive)
           Examples.world).2
    = calls Examples.world.
Proof.
  apply (getOAuthResult_invalid_token Examples.env (VRef 18%positive) (VRef 8%positive)
           Examples.world).
  right. exists 8%positive. split; [reflexivity | vm_compute; reflexivity].
Defined.

(** C2, as amended. A falsy result fails with INVALID_RESULT and a
    result whose [redirect] is falsy fails with INVALID_RESULT_REDIRECT,
    both without writing anything. For a result object with a non-empty
    string [redirect], the [state] and [code] parameters of the
    redirect's query string are written on the result object itself,
    and the call then returns that same object when the validator
    accepts the code and fails with INVALID_RESULT_CODE when it does
    not; in both cases the object keeps what was written. *)
Theorem formatOAuthResult_cases env result w :
  (truthy result = false →
     O._formatOAuthResult env result w = (Fails (OAuthError "INVALID_RESULT"), w)) ∧
  (∀ redirect,
     truthy result = true →
     member result "redirect" w = (Returns redirect, w) →
     truthy redirect = false →
     O._formatOAuthResult env result w = (Fails (OAuthError "INVALID_RESULT_REDIRECT"), w)) ∧
  (∀ l s,
     result = VRef l →
     getProp (heap w) l "redirect" = VStr s →
     s ≠ "" →
     let redirectParams := from_option VStr VUndefined (split_on "?" s !! 1%nat) in
     let state := Url_searchParam env "state" redirectParams in
     let code := Url_searchParam env "code" redirectParams in
     let w' := set_heap (setProp l "code" code ∘ setProp l "state" state) w in
     O._formatOAuthResult env result w =
       (if Validate_isOAuthCodeValid env code
        then Returns (VRef l)
        else Fails (OAuthError "INVALID_RESULT_CODE"), w')).
Proof.
  split_and!.
  - intros H. unfold O._formatOAuthResult. by rewrite H.
  - intros redirect H Hm Hr. unfold O._formatOAuthResult. rewrite H. simpl.
    erewrite bind_returns; [| done]. by rewrite Hr.
  - intros l s -> Hr Hs. by apply formatOAuthResult_string_redirect.
Qed.

Lemma formatOAuthResult_cases_witness :
  O._formatOAuthResult Examples.env (VRef 1%positive) Examples.world
    = (Returns (VRef 1%positive),
       set_heap (setProp 1%positive "code" (VStr "c0de")
                 ∘ setProp 1%positive "state" (VStr "S")) Examples.world).
Proof.
  destruct (formatOAuthResult_cases Examples.env (VRef 1%positive) Examples.world)
    as (_ & _ & H).
  apply (H 1%positive "https://rp/cb?state=S&code=c0de");
    [reflexivity | vm_compute; reflexivity | discriminate].
Defined.

(** C2 as stated fails: the call writes [state] and [code] on the object
    it is given, whatever [Url.searchParam] and the validator are. *)
Lemma formatOAuthResult_writes_its_argument :
  ∃ (w : World) (result : JSValue), ∀ env,
    (O._formatOAuthResult env result w).1
      = (if Validate_isOAuthCodeValid env (Url_searchParam env "code" (VStr "state=S&code=C"))
         then Returns result else Fails (OAuthError "INVALID_RESULT_CODE")) ∧
    is_Some (heap (O._formatOAuthResult env result w).2 !! 1%positive ≫= (.!! "code")) ∧
    heap w !! 1%positive ≫= (.!! "code") = None.
Proof.
  exists (mkWorld {[ 1%positive := {[ "redirect" := VStr "https://rp/cb?state=S&code=C" ]} ]} ∅ ∅ []),
    (VRef 1%positive).
  intros env.
  rewrite (formatOAuthResult_string_redirect env 1%positive "https://rp/cb?state=S&code=C")
    by done. simpl. split_and!; [| | done].
  - by destruct (Validate_isOAuthCodeValid _ _).
  - rewrite lookup_setProp_eq. simpl. rewrite lookup_insert_eq. done.
Qed.

(** C3. For an account with a session token, once the assertion library
    has produced an assertion, [getCode] is called with a parameter set
    that holds [access_type] (the offline constant) exactly when the
    relier's [accessType] is that constant, and has no such key
    otherwise; besides that key it holds exactly [assertion],
    [client_id], [scope] and [state]. *)
Theorem getOAuthResult_oauthParams env this la llib lr lc w assertion :
  let h := heap w in
  let sessionToken := getProp h la "sessionToken" in
  let accessType := getProp h lr "accessType" in
  truthy sessionToken = true →
  getProp h this "_assertionLibrary" = VRef llib →
  getProp h this "relier" = VRef lr →
  getProp h this "_oAuthClient" = VRef lc →
  generate env (calls w) sessionToken = Returns assertion →
  ∃ oauthParams : Obj,
    calls (O.getOAuthResult env (VRef this) (VRef la) w).2
      = (calls w ++ [CallGenerate sessionToken; CallGetCode oauthParams])%list ∧
    oauthParams !! "access_type"
      = (if decide (accessType = Constants.ACCESS_TYPE_OFFLINE)
         then Some Constants.ACCESS_TYPE_OFFLINE else None) ∧
    dom oauthParams ∖ {["access_type"]}
      = {["assertion"; "client_id"; "scope"; "state"]} ∧
    oauthParams !! "assertion" = Some assertion ∧
    oauthParams !! "client_id" = Some (getProp h lr "clientId") ∧
    oauthParams !! "scope" = Some (getProp h lr "scope") ∧
    oauthParams !! "state" = Some (getProp h lr "state").
Proof.
  intros h sessionToken accessType Htok Hlib Hrel Hcli Hgen.
  set (base := (list_to_map [("assertion", assertion); ("client_id", getProp h lr "clientId");
     ("scope", getProp h lr "scope"); ("state", getProp h lr "state")] : Obj)).
  exists (if strict_eq accessType Constants.ACCESS_TYPE_OFFLINE
          then <["access_type" := Constants.ACCESS_TYPE_OFFLINE]> base else base).
  split.
  - unfold O.getOAuthResult.
    erewrite bind_returns;
      [| unfold O.has_sessionToken; simpl; unfold mbind, M_bind, bind; simpl;
         fold h; fold sessionToken; by rewrite Htok].
    simpl.
    erewrite bind_returns; [| simpl; fold h; by rewrite Hlib].
    erewrite bind_returns; [| simpl; done].
    fold h. fold sessionToken.
    erewrite bind_returns; [| unfold O.call_generate; by rewrite Hgen].
    erewrite bind_returns; [| simpl; fold h; by rewrite Hrel].
    do 4 (erewrite bind_returns; [| simpl; done]).
    erewrite bind_returns; [| simpl; fold h; by rewrite Hcli].
    simpl. fold h. fold accessType. fold base.
    unfold mbind, M_bind, bind, O.call_getCode. 
    match goal with |- context [getCode ?e ?c ?p] => destruct (getCode e c p) as [r|e'] end.
    + rewrite keeps_calls_formatOAuthResult. simpl. by rewrite <- app_assoc.
    + simpl. by rewrite <- app_assoc.
  - unfold strict_eq. case_bool_decide; [rewrite decide_True by done | rewrite decide_False by done].
    + by split_and!.
    + by split_and!.
Qed.

Lemma getOAuthResult_oauthParams_witness :
  ∃ oauthParams : Obj,
    calls (O.getOAuthResult Examples.env (VRef 18%positive) (VRef 7%positive)
             Examples.world).2
      = [CallGenerate (VStr "tok"); CallGetCode oauthParams] ∧
    oauthParams !! "access_type" = Some (VStr "offline").
Proof.
  destruct (getOAuthResult_oauthParams Examples.env 18%positive 7%positive 10%positive
              6%positive 11%positive Examples.world (VStr "assertion"))
    as (oauthParams & Hc & Ha & _); try (vm_compute; reflexivity).
  exists oauthParams. split; [exact Hc | exact Ha].
Defined.







(** C6. The OAuth broker's [persistVerificationData] stores under
    [access_type] what the relier holds under ['access_type'], not what
    it holds under [accessType]: for a relier whose [accessType] is
    "offline", the 'oauth' session record has [access_type] undefined. *)
Lemma persistVerificationData_access_type :
  let this := Examples.oauthBroker Examples.the in
  let account := Examples.account Examples.the in
  let stored := O.persistVerificationData this account Examples.world in
  (Model.get (Examples.relier Examples.the) "accessType" Examples.world).1
    = Returns (VStr "offline") ∧
  stored.1 = Returns VUndefined ∧
  session stored.2 !! "oauth"
    = Some (list_to_map [
        ("access_type", VUndefined); ("action", VUndefined);
        ("client_id", VStr "dcdb5ae7add825d2"); ("keys", VBool true);
        ("scope", VStr "profile"); ("state", VStr "s1") ]) ∧
  SameBrowserVerificationModel.read "context" (VStr "uid1") stored.2
    = Some (list_to_map [ ("context", VStr "oauth"); ("email", VStr "a@b.c") ]).
Proof. split_and!; vm_compute; reflexivity. Qed.

(** C7. On either broker, after [persistVerificationData account] and
    [unpersistVerificationData account] no correlation record can be
    read for ('context', the account's uid); [unpersistVerificationData]
    returns normally, a second call returns normally too and changes
    nothing, and so does a call when there is no record. *)
Theorem persist_then_unpersist env k this la w :
  let account := VRef la in
  let uid := getProp (heap w) la "uid" in
  let w1 := (invoke env k this (persistVerificationData account) w).2 in
  let r2 := invoke env k this (unpersistVerificationData account) w1 in
  let r3 := invoke env k this (unpersistVerificationData account) r2.2 in
  r2.1 = Returns VUndefined ∧
  SameBrowserVerificationModel.read "context" uid r2.2 = None ∧
  r3 = (Returns VUndefined, r2.2) ∧
  (SameBrowserVerificationModel.read "context" uid w = None →
   invoke env k this (unpersistVerificationData account) w = (Returns VUndefined, w)).
Proof.
  intros account uid w1 r2 r3. subst r3 r2 account.
  rewrite !unpersistVerificationData_deletes. simpl.
  assert (heap w1 = heap w) as Hh by apply keeps_heap_invoke_persist.
  rewrite Hh. fold uid. split_and!; try done.
  - unfold SameBrowserVerificationModel.read. simpl. apply lookup_delete_eq.
  - f_equal. destruct w1 as [h s st c]. unfold set_storage. simpl.
    by rewrite delete_delete_eq.
  - unfold SameBrowserVerificationModel.read. intros Hn.
    f_equal.
    destruct w as [h s st c]. unfold set_storage. simpl in *. by rewrite delete_id.
Qed.

Lemma persist_then_unpersist_witness :
  let this := Examples.oauthBroker Examples.the in
  let account := Examples.account Examples.the in
  let w1 := (invoke Examples.env OAuth this (persistVerificationData account)
               Examples.world).2 in
  let r2 := invoke Examples.env OAuth this (unpersistVerificationData account) w1 in
  is_Some (SameBrowserVerificationModel.read "context" (VStr "uid1") w1) ∧
  r2.1 = Returns VUndefined ∧
  SameBrowserVerificationModel.read "context" (VStr "uid1") r2.2 = None ∧
  invoke Examples.env OAuth this (unpersistVerificationData account) Examples.world
    = (Returns VUndefined, Examples.world).
Proof.
  destruct (persist_then_unpersist Examples.env OAuth (Examples.oauthBroker Examples.the)
              7%positive Examples.world) as (H1 & H2 & _ & H4).
  split_and!; [vm_compute; eexists; reflexivity | exact H1 | exact H2 |].
  apply H4. vm_compute. reflexivity.
Defined.

(** C8. [finishOAuthFlow] clears the 'oauth' session record before it
    calls [getOAuthResult]: whenever that call fails, [finishOAuthFlow]
    fails with the same error and the record is gone. *)
Theorem finishOAuthFlow_not_atomic env this ls account additionalResultData w e :
  getProp (heap w) this "session" = VRef ls →
  (O.getOAuthResult env (VRef this) account (set_session (delete "oauth") w)).1 = Fails e →
  let r := O.finishOAuthFlow env (VRef this) account additionalResultData w in
  r = (Fails e, (O.getOAuthResult env (VRef this) account
                   (set_session (delete "oauth") w)).2) ∧
  session r.2 = delete "oauth" (session w) ∧
  session r.2 !! "oauth" = None.
Proof.
  intros Hs Hg r.
  pose proof (keeps_session_getOAuthResult env (VRef this) account
    (set_session (delete "oauth") w)) as Hk.
  assert (r = (Fails e, (O.getOAuthResult env (VRef this) account
                           (set_session (delete "oauth") w)).2)) as ->.
  { unfold r, O.finishOAuthFlow.
    erewrite bind_returns; [| simpl; by rewrite Hs].
    erewrite bind_returns; [| done].
    destruct (O.getOAuthResult env (VRef this) account (set_session (delete "oauth") w))
      as [[a|e'] w'] eqn:E; [done|].
    simpl in Hg. injection Hg as ->. by erewrite bind_fails. }
  split_and!; [done | exact Hk | simpl; rewrite Hk; apply lookup_delete_eq].
Qed.

Lemma finishOAuthFlow_not_atomic_witness :
  let w := (O.persistVerificationData (VRef 18%positive) (VRef 7%positive)
              Examples.world).2 in
  let r := O.finishOAuthFlow Examples.env (VRef 18%positive) (VRef 8%positive)
             {[ "action" := Constants.OAUTH_ACTION_SIGNIN ]} w in
  is_Some (session w !! "oauth") ∧
  r.1 = Fails (AuthError "INVALID_TOKEN") ∧
  session r.2 !! "oauth" = None.
Proof.
  intros w r.
  destruct (finishOAuthFlow_not_atomic Examples.env 18%positive 9%positive
              (VRef 8%positive) {[ "action" := Constants.OAUTH_ACTION_SIGNIN ]}
              w (AuthError "INVALID_TOKEN"))
    as (H1 & _ & H3); [vm_compute; reflexivity | vm_compute; reflexivity |].
  fold r in H1, H3.
  split_and!; [vm_compute; eexists; reflexivity | by rewrite H1 | exact H3].
Defined.

(** C9. [isForceAuth] never fails; on an instance on which [fetch] was
    not called it returns false, whatever other methods were called;
    and after [fetch] it returns whether the window's pathname was
    '/force_auth' or '/oauth/force_auth' when [fetch] ran, whatever
    methods other than [fetch] are called afterwards. *)
Theorem isForceAuth_cached env proto options w0 (before : list Step) (after : list Method)
    lw ll :
  ∃ this w1,
    construct env proto options w0 = (Returns (VRef this), w1) ∧
    (∀ l w, ∃ b, B.isForceAuth (VRef l) w = (Returns (VBool b), w)) ∧
    (let w := after_calls env (kind proto) (VRef this) after w1 in
     B.isForceAuth (VRef this) w = (Returns (VBool false), w)) ∧
    (let w2 := run env (kind proto) (VRef this) before w1 in
     getProp (heap w2) this "window" = VRef lw →
     getProp (heap w2) lw "location" = VRef ll →
     let pathname := getProp (heap w2) ll "pathname" in
     let w4 := after_calls env (kind proto) (VRef this) after (B.fetch env (VRef this) w2).2 in
     B.isForceAuth (VRef this) w4
       = (Returns (VBool (bool_decide (pathname = VStr "/force_auth"
                                       ∨ pathname = VStr "/oauth/force_auth"))), w4)).
Proof.
  destruct (construct_guarded env proto options w0) as (this & o & w1 & E & Hu & Hg & Hn).
  exists this, w1. split_and!; [done|..].
  - intros l w. eexists. unfold B.isForceAuth, mbind, M_bind, bind. simpl. done.
  - intros w. rewrite (isForceAuth_reads this o); [by rewrite Hn|].
    by apply untouched_after.
  - intros w2 Hwin Hloc pathname w4.
    destruct (guarded_after_steps env (kind proto) this o before w1 Hg Hu)
      as (o' & Hg' & Hu' & _).
    pose proof (fetch_caches env this o' lw ll w2 Hg' Hu' Hwin Hloc) as Hf.
    simpl in Hf. fold pathname in Hf.
    erewrite (isForceAuth_reads this); cycle 1.
    { apply untouched_after; [|exact Hf]. by apply guarded_isForceAuth. }
    by rewrite lookup_insert_eq.
Qed.

Lemma isForceAuth_cached_witness :
  ∃ this w1,
    construct Examples.env (Examples.oauthProto Examples.the)
      {[ "window" := VRef 13%positive ]} Examples.world = (Returns (VRef this), w1) ∧
    let w4 :=
      after_calls Examples.env OAuth (VRef this)
        [setBehavior "_isForceAuth" (VBool false); afterSignIn (VRef 7%positive)]
        (B.fetch Examples.env (VRef this)
           (run Examples.env OAuth (VRef this) [Invoke (setCapability "signup" VNull)] w1)).2 in
    B.isForceAuth (VRef this) w4 = (Returns (VBool true), w4).
Proof.
  destruct (isForceAuth_cached Examples.env (Examples.oauthProto Examples.the)
              {[ "window" := VRef 13%positive ]} Examples.world
              [Invoke (setCapability "signup" VNull)]
              [setBehavior "_isForceAuth" (VBool false); afterSignIn (VRef 7%positive)]
              13%positive 12%positive)
    as (this & w1 & E & _ & _ & H).
  exists this, w1. split; [exact E|].
  assert ((construct Examples.env (Examples.oauthProto Examples.the)
             {[ "window" := VRef 13%positive ]} Examples.world).1
          = Returns (VRef 22%positive)) as E1 by (vm_compute; reflexivity).
  assert (w1 = (construct Examples.env (Examples.oauthProto Examples.the)
                  {[ "window" := VRef 13%positive ]} Examples.world).2) as ->
    by (rewrite E; reflexivity).
  rewrite E in E1. injection E1 as ->.
  apply H; vm_compute; reflexivity.
Defined.

(** C10. Two instances, of any classes, the second one created after any
    registry calls on the first: whatever calls of [setBehavior],
    [setCapability] and [unsetCapability] are then made on the two, in
    any order, [getBehavior], [getCapability] and [hasCapability] on
    either instance answer as if the calls on the other had not been
    made. *)
Theorem registries_isolated env protoA optionsA protoB optionsB w0
    (before : list RegistryOp) (l : list (bool * RegistryOp)) name :
  ∃ a b wA wB,
    construct env protoA optionsA w0 = (Returns (VRef a), wA) ∧
    construct env protoB optionsB (run_on env (kind protoA) (VRef a) before wA)
      = (Returns (VRef b), wB) ∧
    a ≠ b ∧
    let both := run_both env (kind protoA) (VRef a) (kind protoB) (VRef b) l wB in
    let only_a := run_on env (kind protoA) (VRef a) (ops_for true l) wB in
    let only_b := run_on env (kind protoB) (VRef b) (ops_for false l) wB in
    (B.getBehavior (VRef b) name both).1 = (B.getBehavior (VRef b) name only_b).1 ∧
    (B.getCapability (VRef b) name both).1 = (B.getCapability (VRef b) name only_b).1 ∧
    (B.hasCapability (VRef b) name both).1 = (B.hasCapability (VRef b) name only_b).1 ∧
    (B.getBehavior (VRef a) name both).1 = (B.getBehavior (VRef a) name only_a).1 ∧
    (B.getCapability (VRef a) name both).1 = (B.getCapability (VRef a) name only_a).1 ∧
    (B.hasCapability (VRef a) name both).1 = (B.hasCapability (VRef a) name only_a).1.
Proof.
  destruct (construct_instance env protoA optionsA w0)
    as (a & lbA & lcA & BA & CA & wA & EA & IA & _).
  pose proof (instance_run_on env (kind protoA) a lbA lcA BA CA before wA IA) as IA1.
  set (w1 := run_on env (kind protoA) (VRef a) before wA) in *.
  destruct (construct_instance env protoB optionsB w1)
    as (b & lbB & lcB & BB & CB & wB & EB & IB & FB & FrB & _).
  destruct (instance_allocated _ _ _ _ _ _ IA1) as (Sa & Sb & Sc).
  assert (instance (heap wB) a lbA lcA (behaviors_of before BA) (capabilities_of before CA))
    as IA2.
  { apply (instance_frame (heap w1)); [done|..]; by apply FrB. }
  assert (NoDup [a; lbA; lcA; b; lbB; lcB]) as ND.
  { destruct IA1 as (_ & _ & _ & _ & ? & ? & ?), IB as (_ & _ & _ & _ & ? & ? & ?).
    assert (∀ x y, is_Some (heap w1 !! x) → heap w1 !! y = None → x ≠ y) as Hne.
    { intros x y [? ?] ? ->. congruence. }
    assert (heap w1 !! b = None) by (apply FB; set_solver).
    assert (heap w1 !! lbB = None) by (apply FB; set_solver).
    assert (heap w1 !! lcB = None) by (apply FB; set_solver).
    repeat (apply NoDup_cons_2;
      [rewrite ?elem_of_cons, elem_of_nil;
       intros Hx; repeat destruct Hx as [Hx|Hx]; try done;
       try (by eapply Hne; [| |exact Hx]); by (symmetry in Hx; eapply Hne; [| |exact Hx]) |]).
    apply NoDup_nil_2. }
  exists a, b, wA, wB. split_and!; [done|done| |].
  { apply NoDup_cons in ND as [ND _]. set_solver. }
  intros both only_a only_b.
  destruct (two_instances_run env (kind protoA) a lbA lcA (kind protoB) b lbB lcB l ND
              wB _ _ _ _ IA2 IB) as [JA JB].
  fold both in JA, JB.
  pose proof (instance_run_on env (kind protoA) a lbA lcA _ _ (ops_for true l) wB IA2) as KA.
  pose proof (instance_run_on env (kind protoB) b lbB lcB _ _ (ops_for false l) wB IB) as KB.
  fold only_a in KA. fold only_b in KB.
  rewrite !(instance_getBehavior _ _ _ _ _ _ _ JB), !(instance_getBehavior _ _ _ _ _ _ _ KB),
    !(instance_getCapability _ _ _ _ _ _ _ JB), !(instance_getCapability _ _ _ _ _ _ _ KB),
    !(instance_hasCapability _ _ _ _ _ _ _ JB), !(instance_hasCapability _ _ _ _ _ _ _ KB),
    !(instance_getBehavior _ _ _ _ _ _ _ JA), !(instance_getBehavior _ _ _ _ _ _ _ KA),
    !(instance_getCapability _ _ _ _ _ _ _ JA), !(instance_getCapability _ _ _ _ _ _ _ KA),
    !(instance_hasCapability _ _ _ _ _ _ _ JA), !(instance_hasCapability _ _ _ _ _ _ _ KA).
  done.
Qed.

(** ** Further properties of the two brokers *)

(** *** The registries, call by call *)

Lemma behaviors_of_snoc ops op (seed : Obj) :
  behaviors_of (ops ++ [op]) seed = behaviors_after op (behaviors_of ops seed).
Proof. unfold behaviors_of. by rewrite foldl_app. Qed.

Lemma capabilities_of_snoc ops op (seed : Obj) :
  capabilities_of (ops ++ [op]) seed = capabilities_after op (capabilities_of ops seed).
Proof. unfold capabilities_of. by rewrite foldl_app. Qed.


Lemma run_on_frame env k this lb lc B C ops w l :
  instance (heap w) this lb lc B C → l ≠ lb → l ≠ lc →
  heap (run_on env k (VRef this) ops w) !! l = heap w !! l.
Proof.
  revert w B C. induction ops as [|op ops IH]; intros w B0 C0 Hi Hb Hc; [done|].
  unfold run_on, after_calls. simpl.
  pose proof (instance_after env k this lb lc B0 C0 op w Hi) as Hi'.
  destruct (invoke_registry_op env k this lb lc B0 C0 op w Hi) as (w' & Ew & Hh & _).
  rewrite Ew in Hi' |- *. simpl in *.
  etrans; [by eapply (IH w')|]. rewrite Hh. by rewrite !lookup_insert_ne.
Qed.

Lemma declaredCapabilities_oauth name :
  name ≠ "handleSignedInNotification" →
  declaredCapabilities OAuth !! name = declaredCapabilities Base !! name.
Proof.
  intros Hne. unfold declaredCapabilities, O.capabilityOverrides. simpl.
  rewrite insert_empty, <- insert_union_singleton_l. by rewrite lookup_insert_ne.
Qed.

Lemma declaredBehaviors_oauth name :
  name ∉ ["afterForceAuth"; "afterSignIn"; "afterSignInConfirmationPoll"] →
  declaredBehaviors OAuth !! name = declaredBehaviors Base !! name.
Proof.
  intros Hne. rewrite !not_elem_of_cons in Hne. destruct Hne as (H1 & H2 & H3 & _).
  unfold declaredBehaviors, O.behaviorOverrides. simpl.
  apply lookup_union_r. by rewrite !lookup_insert_ne.
Qed.

Lemma own_key_ordinary name : name ≠ "__proto__" → Model.own_key name = true.
Proof.
  intros H. unfold Model.own_key. apply negb_true_iff. by apply String.eqb_neq.
Qed.

(** X1. On any instance and after any registry calls, once
    [setBehavior name value] has been called for a name other than
    ['__proto__'] with a value that is neither null nor undefined,
    [getBehavior name] returns that value; the call changes what
    [getBehavior] answers for no other name, and what [getCapability]
    and [hasCapability] answer for no name at all. *)
Theorem setBehavior_then_getBehavior env proto options w0 (ops : list RegistryOp)
    name value other capability :
  name ≠ "__proto__" →
  ∃ this w1,
    construct env proto options w0 = (Returns (VRef this), w1) ∧
    let w := run_on env (kind proto) (VRef this) ops w1 in
    let w' := run_on env (kind proto) (VRef this) (ops ++ [SetBehavior name value]) w1 in
    (not_nullish value = true →
     B.getBehavior (VRef this) name w' = (Returns value, w')) ∧
    (other ≠ name →
     (B.getBehavior (VRef this) other w').1 = (B.getBehavior (VRef this) other w).1) ∧
    (B.getCapability (VRef this) capability w').1
      = (B.getCapability (VRef this) capability w).1 ∧
    (B.hasCapability (VRef this) capability w').1
      = (B.hasCapability (VRef this) capability w).1.
Proof.
  intros Hname.
  destruct (construct_instance env proto options w0)
    as (this & lb & lc & B0 & C0 & w1 & E1 & I1 & _).
  exists this, w1. split; [done|]. intros w w'.
  pose proof (instance_run_on env (kind proto) this lb lc B0 C0 ops w1 I1) as I.
  pose proof (instance_run_on env (kind proto) this lb lc B0 C0
                (ops ++ [SetBehavior name value]) w1 I1) as I'.
  rewrite behaviors_of_snoc, capabilities_of_snoc in I'. simpl in I'.
  rewrite (own_key_ordinary _ Hname) in I'.
  fold w in I. fold w' in I'.
  rewrite !(instance_getBehavior _ _ _ _ _ _ _ I'), !(instance_getBehavior _ _ _ _ _ _ _ I),
    !(instance_getCapability _ _ _ _ _ _ _ I'), !(instance_getCapability _ _ _ _ _ _ _ I),
    !(instance_hasCapability _ _ _ _ _ _ _ I'), !(instance_hasCapability _ _ _ _ _ _ _ I).
  unfold Model.read. split_and!; try done.
  - intros Hv. simpl. rewrite lookup_insert_eq. simpl. by rewrite Hv.
  - intros Hne. simpl. by rewrite lookup_insert_ne.
Qed.

Lemma setBehavior_then_getBehavior_witness :
  ∃ this w1,
    construct Examples.env (Examples.baseProto Examples.the) ∅ Examples.world
      = (Returns (VRef this), w1) ∧
    let w' := run_on Examples.env Base (VRef this)
                ([SetCapability "signup" (VBool false)]
                   ++ [SetBehavior "toString" (VBehavior HaltBehavior)]) w1 in
    B.getBehavior (VRef this) "toString" w' = (Returns (VBehavior HaltBehavior), w').
Proof.
  destruct (setBehavior_then_getBehavior Examples.env (Examples.baseProto Examples.the) ∅
              Examples.world [SetCapability "signup" (VBool false)]
              "toString" (VBehavior HaltBehavior) "afterSignIn" "signup")
    as (this & w1 & E & H & _); [discriminate|].
  exists this, w1. split; [exact E|]. apply H. reflexivity.
Defined.

(** X2. Setting a behaviour to null or undefined unregisters it: on any
    instance and after any registry calls, [getBehavior name] right
    after [setBehavior name value] with such a value, for a name other
    than ['__proto__'], fails with 'behavior not found', also for a
    name of the default table and for a name that [Object.prototype]
    defines. *)
Theorem setBehavior_nullish_unregisters env proto options w0 (ops : list RegistryOp)
    name value :
  name ≠ "__proto__" →
  not_nullish value = false →
  ∃ this w1,
    construct env proto options w0 = (Returns (VRef this), w1) ∧
    let w' := run_on env (kind proto) (VRef this) (ops ++ [SetBehavior name value]) w1 in
    B.getBehavior (VRef this) name w'
      = (Fails (JSError ("behavior not found for: " +:+ name)), w').
Proof.
  intros Hname Hv.
  destruct (construct_instance env proto options w0)
    as (this & lb & lc & B0 & C0 & w1 & E1 & I1 & _).
  exists this, w1. split; [done|]. intros w'.
  pose proof (instance_run_on env (kind proto) this lb lc B0 C0
                (ops ++ [SetBehavior name value]) w1 I1) as I'.
  rewrite behaviors_of_snoc in I'. simpl in I'.
  rewrite (own_key_ordinary _ Hname) in I'. fold w' in I'.
  rewrite (instance_getBehavior _ _ _ _ _ _ _ I'). simpl.
  unfold Model.read. rewrite lookup_insert_eq. simpl. by rewrite Hv.
Qed.

Lemma setBehavior_nullish_unregisters_witness :
  ∃ this w1,
    construct Examples.env (Examples.oauthProto Examples.the) ∅ Examples.world
      = (Returns (VRef this), w1) ∧
    let w' := run_on Examples.env OAuth (VRef this)
                ([SetBehavior "afterSignIn" (VBehavior NullBehavior)]
                   ++ [SetBehavior "afterSignIn" VNull]) w1 in
    B.getBehavior (VRef this) "afterSignIn" w'
      = (Fails (JSError "behavior not found for: afterSignIn"), w').
Proof.
  apply (setBehavior_nullish_unregisters Examples.env (Examples.oauthProto Examples.the) ∅
           Examples.world [SetBehavior "afterSignIn" (VBehavior NullBehavior)]
           "afterSignIn" VNull); [discriminate | reflexivity].
Defined.

(** X3. On any instance and after any registry calls that are not
    about ['__proto__'], for a name other than ['__proto__']: right
    after [unsetCapability name], [getCapability name] returns what the
    registry inherits under that name, the built-in member for a name
    that [Object.prototype] defines and undefined for any other, and
    [hasCapability name] answers true for the former and false for the
    latter; after a following [setCapability name value] they return
    the value and its truth value. Neither call changes what is
    answered for another capability or for any behaviour. *)
Theorem unsetCapability_then_query env proto options w0 (ops : list RegistryOp)
    name value other behavior :
  ordinary ops →
  name ≠ "__proto__" →
  ∃ this w1,
    construct env proto options w0 = (Returns (VRef this), w1) ∧
    let w := run_on env (kind proto) (VRef this) ops w1 in
    let w' := run_on env (kind proto) (VRef this) (ops ++ [UnsetCapability name]) w1 in
    let w'' := run_on env (kind proto) (VRef this)
                 ((ops ++ [UnsetCapability name]) ++ [SetCapability name value]) w1 in
    B.getCapability (VRef this) name w'
      = (Returns (if Model.inherited name then VBuiltin name else VUndefined), w') ∧
    B.hasCapability (VRef this) name w' = (Returns (VBool (Model.inherited name)), w') ∧
    B.getCapability (VRef this) name w'' = (Returns value, w'') ∧
    B.hasCapability (VRef this) name w'' = (Returns (VBool (truthy value)), w'') ∧
    (other ≠ name →
     (B.getCapability (VRef this) other w').1 = (B.getCapability (VRef this) other w).1 ∧
     (B.getCapability (VRef this) other w'').1 = (B.getCapability (VRef this) other w).1) ∧
    (B.getBehavior (VRef this) behavior w').1 = (B.getBehavior (VRef this) behavior w).1 ∧
    (B.getBehavior (VRef this) behavior w'').1 = (B.getBehavior (VRef this) behavior w).1.
Proof.
  intros _ Hname.
  destruct (construct_instance env proto options w0)
    as (this & lb & lc & B0 & C0 & w1 & E1 & I1 & _).
  exists this, w1. split; [done|]. intros w w' w''.
  pose proof (instance_run_on env (kind proto) this lb lc B0 C0 ops w1 I1) as I.
  pose proof (instance_run_on env (kind proto) this lb lc B0 C0
                (ops ++ [UnsetCapability name]) w1 I1) as I'.
  pose proof (instance_run_on env (kind proto) this lb lc B0 C0
                ((ops ++ [UnsetCapability name]) ++ [SetCapability name value]) w1 I1) as I''.
  rewrite !behaviors_of_snoc, !capabilities_of_snoc in I''.
  rewrite !behaviors_of_snoc, !capabilities_of_snoc in I'.
  simpl in I', I''. rewrite (own_key_ordinary _ Hname) in I', I''.
  fold w in I. fold w' in I'. fold w'' in I''.
  rewrite !(instance_getBehavior _ _ _ _ _ _ _ I''), !(instance_getBehavior _ _ _ _ _ _ _ I'),
    !(instance_getBehavior _ _ _ _ _ _ _ I),
    !(instance_getCapability _ _ _ _ _ _ _ I''), !(instance_getCapability _ _ _ _ _ _ _ I'),
    !(instance_getCapability _ _ _ _ _ _ _ I),
    !(instance_hasCapability _ _ _ _ _ _ _ I''), !(instance_hasCapability _ _ _ _ _ _ _ I').
  unfold Model.read. rewrite lookup_delete_eq, lookup_insert_eq. simpl.
  split_and!; try done.
  - by destruct (Model.inherited name).
  - intros Hne. by rewrite lookup_insert_ne, !lookup_delete_ne.
Qed.

Lemma unsetCapability_then_query_witness :
  ∃ this w1,
    construct Examples.env (Examples.baseProto Examples.the) ∅ Examples.world
      = (Returns (VRef this), w1) ∧
    let w' := run_on Examples.env Base (VRef this) ([] ++ [UnsetCapability "signup"]) w1 in
    let w'' := run_on Examples.env Base (VRef this)
                 (([] ++ [UnsetCapability "signup"]) ++ [SetCapability "signup" (VNum 1)])
                 w1 in
    B.getCapability (VRef this) "signup" w' = (Returns VUndefined, w') ∧
    B.hasCapability (VRef this) "signup" w' = (Returns (VBool false), w') ∧
    B.hasCapability (VRef this) "signup" w'' = (Returns (VBool true), w'').
Proof.
  destruct (unsetCapability_then_query Examples.env (Examples.baseProto Examples.the) ∅
              Examples.world [] "signup" (VNum 1) "signup" "afterSignIn")
    as (this & w1 & E & H1 & H2 & _ & H4 & _); [constructor | discriminate |].
  exists this, w1. split; [exact E|]. split_and!; [exact H1 | exact H2 | exact H4].
Defined.



(** X5. What the OAuth class overrides, seen on new instances of the
    two classes: the capabilities differ in [handleSignedInNotification]
    only (true on the base broker, false on the OAuth broker), and the
    behaviours in [afterForceAuth], [afterSignIn] and
    [afterSignInConfirmationPoll] only (the null behaviour against the
    halting one); for every other name [getCapability], [hasCapability]
    and [getBehavior] answer the same on both. *)
Theorem oauth_overrides env options w name :
  ∃ base oauth w' b wb o wo,
    define_classes w = (Returns (base, oauth), w') ∧
    construct env base options w' = (Returns (VRef b), wb) ∧
    construct env oauth options w' = (Returns (VRef o), wo) ∧
    (name ≠ "handleSignedInNotification" →
     (B.getCapability (VRef o) name wo).1 = (B.getCapability (VRef b) name wb).1 ∧
     (B.hasCapability (VRef o) name wo).1 = (B.hasCapability (VRef b) name wb).1) ∧
    (B.hasCapability (VRef b) "handleSignedInNotification" wb).1 = Returns (VBool true) ∧
    (B.hasCapability (VRef o) "handleSignedInNotification" wo).1 = Returns (VBool false) ∧
    (name ∉ ["afterForceAuth"; "afterSignIn"; "afterSignInConfirmationPoll"] →
     (B.getBehavior (VRef o) name wo).1 = (B.getBehavior (VRef b) name wb).1) ∧
    (name ∈ ["afterForceAuth"; "afterSignIn"; "afterSignInConfirmationPoll"] →
     (B.getBehavior (VRef o) name wo).1 = Returns (VBehavior HaltBehavior) ∧
     (B.getBehavior (VRef b) name wb).1 = Returns (VBehavior NullBehavior)).
Proof.
  destruct (define_classes_spec w) as (base & oauth & w' & E & Kb & Ko & Hp).
  destruct (Hp base) as (ltb & ltc & Htb & Hltb & Htc & Hltc); [apply list_elem_of_here|].
  destruct (Hp oauth) as (lob & loc' & Hob & Hlob & Hoc & Hloc);
    [apply list_elem_of_further, list_elem_of_here|].
  destruct (construct_instance env base options w')
    as (b & lb & lc & B0 & C0 & wb & Eb & Ib & _ & _ & HBb & HCb & _).
  destruct (construct_instance env oauth options w')
    as (o & lb' & lc' & B1 & C1 & wo & Eo & Io & _ & _ & HBo & HCo & _).
  rewrite (HBb ltb Htb), (HCb ltc Htc) in Ib by eauto.
  rewrite (HBo lob Hob), (HCo loc' Hoc) in Io by eauto.
  unfold object_at in Ib, Io. rewrite Hltb, Hltc in Ib. rewrite Hlob, Hloc in Io.
  rewrite Kb in Ib. rewrite Ko in Io. cbn [default from_option id] in Ib, Io.
  exists base, oauth, w', b, wb, o, wo. split_and!; [done|done|done|..].
  - intros Hne.
    rewrite !(instance_getCapability _ _ _ _ _ _ _ Io), !(instance_getCapability _ _ _ _ _ _ _ Ib),
      !(instance_hasCapability _ _ _ _ _ _ _ Io), !(instance_hasCapability _ _ _ _ _ _ _ Ib).
    cbn [fst]. unfold Model.read. by rewrite declaredCapabilities_oauth.
  - by rewrite (instance_hasCapability _ _ _ _ _ _ _ Ib).
  - by rewrite (instance_hasCapability _ _ _ _ _ _ _ Io).
  - intros Hne.
    rewrite (instance_getBehavior _ _ _ _ _ _ _ Io), (instance_getBehavior _ _ _ _ _ _ _ Ib).
    cbn [fst]. unfold Model.read. by rewrite declaredBehaviors_oauth.
  - intros Hin.
    rewrite (instance_getBehavior _ _ _ _ _ _ _ Io), (instance_getBehavior _ _ _ _ _ _ _ Ib).
    rewrite !elem_of_cons, elem_of_nil in Hin.
    destruct Hin as [->|[->|[->|[]]]]; done.
Qed.

(** *** Methods that only answer *)

Lemma reads_ret {A} (a : A) : reads (mret a).
Proof. done. Qed.

Lemma reads_throw {A} e : reads (@throw A e).
Proof. done. Qed.

Lemma reads_bind {A B} (m : M A) (f : A → M B) :
  reads m → (∀ a, reads (f a)) → reads (m ≫= f).
Proof.
  intros Hm Hf w. unfold mbind, M_bind, bind. specialize (Hm w).
  destruct (m w) as [[a|e] w']; simpl in *; subst; [apply Hf | done].
Qed.

Lemma reads_member v k : reads (member v k).
Proof. intros w. by destruct v. Qed.

Lemma reads_Model_get v k : reads (Model.get v k).
Proof. intros w. by destruct v. Qed.

Lemma reads_Model_has v k : reads (Model.has v k).
Proof. apply reads_bind; [apply reads_Model_get | intros; apply reads_ret]. Qed.

Ltac reads_steps :=
  repeat match goal with
    | |- reads (mret _) => apply reads_ret
    | |- reads (throw _) => apply reads_throw
    | |- reads (member _ _) => apply reads_member
    | |- reads (Model.get _ _) => apply reads_Model_get
    | |- reads (Model.has _ _) => apply reads_Model_has
    | |- reads (_ ≫= _) => apply reads_bind; [| intros ?]
    | |- reads (if ?b then _ else _) => destruct b
    end.

Lemma reads_getBehavior this name : reads (B.getBehavior this name).
Proof. unfold B.getBehavior. reads_steps. Qed.

Lemma getBehavior_heap this name w w' :
  heap w = heap w' → (B.getBehavior this name w).1 = (B.getBehavior this name w').1.
Proof.
  destruct w as [h s st c], w' as [h' s' st' c']. simpl. intros <-.
  unfold B.getBehavior, Model.has, mbind, M_bind, bind.
  destruct this; simpl; try done.
  destruct (getProp h l "_behaviors") eqn:E; simpl; try done.
  destruct (not_nullish _); simpl; [|done]. by rewrite E.
Qed.

(** X6. The getters ([getBehavior], [getCapability], [hasCapability],
    [isForceAuth], [isAutomatedBrowser]), [canCancel], [cancel],
    [afterLoaded], [transformLink], the hooks that only look their
    behaviour up (on the OAuth broker: those it does not override) and
    the OAuth broker's [sendOAuthResultToRelier] leave the store, the
    session, the correlation records and the call trace exactly as they
    were, whatever [this] is and whether they return or fail. *)
Theorem queries_leave_the_world env k this m w :
  is_query k m = true → (invoke env k this m w).2 = w.
Proof.
  intros Hq. revert w. change (reads (invoke env k this m)).
  destruct m, k; try discriminate Hq; simpl;
    unfold B.canCancel, B.cancel, B.afterLoaded, B.beforeSignIn, B.afterSignIn,
      B.afterSignInConfirmationPoll, B.afterForceAuth, B.afterSignUp,
      B.beforeSignUpConfirmationPoll, B.afterSignUpConfirmationPoll,
      B.afterResetPasswordConfirmationPoll, B.afterChangePassword, B.afterDeleteAccount,
      B.transformLink, O.transformLink, B.isForceAuth, B.isAutomatedBrowser,
      B.hasCapability, B.getCapability, O.sendOAuthResultToRelier;
    try apply reads_getBehavior; reads_steps.
Qed.

Lemma queries_leave_the_world_witness :
  (invoke Examples.env OAuth (VRef 18%positive) (hasCapability "signup") Examples.world).2
    = Examples.world.
Proof.
  apply (queries_leave_the_world Examples.env OAuth (VRef 18%positive) (hasCapability "signup")).
  reflexivity.
Defined.

(** *** What an instance is given *)

Lemma construct_props env proto options w :
  ∃ this la lb lc w',
    construct env proto options w = (Returns (VRef this), w') ∧
    untouched this (instance_props env (kind proto) options la lb lc) w' ∧
    guarded this (instance_props env (kind proto) options la lb lc) ∧
    (∀ l, is_Some (heap w !! l) → heap w' !! l = heap w !! l).
Proof.
  destruct (construct_spec env proto options w)
    as (this & la & lb & lc & B0 & C0 & w' & E & ND & F & H & _).
  exists this, la, lb, lc, w'.
  pose proof ND as ND'.
  apply NoDup_cons in ND as [N1 _].
  rewrite ?elem_of_cons, ?elem_of_nil in N1.
  split_and!; [done|..].
  - unfold untouched. rewrite H.
    by rewrite !(lookup_insert_ne _ _ this), lookup_insert_eq by intuition congruence.
  - unfold guarded, instance_props, base_props, oauth_props.
    destruct (kind proto); split_and!; lookup_props; try done;
      intros [= ->]; intuition congruence.
  - intros l [x Hx]. rewrite H.
    rewrite !lookup_insert_ne; [done|..]; intros ->;
      rewrite F in Hx; try done; rewrite !elem_of_cons; intuition.
Qed.

Lemma instance_props_window env k options la lb lc :
  instance_props env k options la lb lc !! "window"
    = Some (js_or (default VUndefined (options !! "window")) (global_window env)).
Proof.
  unfold instance_props, base_props. by lookup_props.
Qed.

(** X7. No method reassigns what [initialize] stored on the broker.
    After any calls of [fetch] and of the other methods, in any order
    and whether they return or fail, [relier] is still the relier of
    the options, [window] the window of the options (the global window
    when the options have none), [_behaviors] and [_capabilities] are
    still the two registries that the constructor created, and on an
    OAuth broker [session], [_assertionLibrary] and [_oAuthClient] are
    still those of the options. *)
Theorem broker_references_are_fixed env proto options w0 (steps : list Step) :
  ∃ this w1,
    construct env proto options w0 = (Returns (VRef this), w1) ∧
    let w := run env (kind proto) (VRef this) steps w1 in
    let given name := default VUndefined (options !! name) in
    getProp (heap w) this "relier" = given "relier" ∧
    getProp (heap w) this "window" = js_or (given "window") (global_window env) ∧
    getProp (heap w) this "_behaviors" = getProp (heap w1) this "_behaviors" ∧
    getProp (heap w) this "_capabilities" = getProp (heap w1) this "_capabilities" ∧
    (kind proto = OAuth →
     getProp (heap w) this "session" = given "session" ∧
     getProp (heap w) this "_assertionLibrary" = given "assertionLibrary" ∧
     getProp (heap w) this "_oAuthClient" = given "oAuthClient").
Proof.
  destruct (construct_props env proto options w0)
    as (this & la & lb & lc & w1 & E & Hu & Hg & _).
  exists this, w1. split; [done|]. intros w given.
  destruct (guarded_after_steps env (kind proto) this _ steps w1 Hg Hu)
    as (o' & _ & Hu' & Hk).
  fold w in Hu'.
  assert (∀ k, k ≠ "_isForceAuth" →
            getProp (heap w) this k
              = default VUndefined (instance_props env (kind proto) options la lb lc !! k))
    as Hget.
  { intros k Hne. unfold getProp. unfold untouched in Hu'. by rewrite Hu', Hk. }
  assert (∀ k, getProp (heap w1) this k
               = default VUndefined (instance_props env (kind proto) options la lb lc !! k))
    as Hget1.
  { intros k. unfold getProp. unfold untouched in Hu. by rewrite Hu. }
  split_and!.
  - rewrite Hget by done. unfold instance_props, base_props. by lookup_props.
  - rewrite Hget by done. by rewrite instance_props_window.
  - by rewrite Hget, Hget1.
  - by rewrite Hget, Hget1.
  - intros Hkind. rewrite !Hget by done. rewrite Hkind.
    unfold instance_props, base_props, oauth_props. split_and!; by lookup_props.
Qed.

Lemma broker_references_are_fixed_witness :
  ∃ this w1,
    construct Examples.env (Examples.oauthProto Examples.the)
      {[ "relier" := VRef 6%positive ]} Examples.world = (Returns (VRef this), w1) ∧
    getProp (heap (run Examples.env OAuth (VRef this)
                     [Fetch; Invoke (finishOAuthSignInFlow (VRef 7%positive))] w1))
      this "relier" = VRef 6%positive.
Proof.
  destruct (broker_references_are_fixed Examples.env (Examples.oauthProto Examples.the)
              {[ "relier" := VRef 6%positive ]} Examples.world
              [Fetch; Invoke (finishOAuthSignInFlow (VRef 7%positive))])
    as (this & w1 & E & H & _).
  exists this, w1. split; [exact E | exact H].
Defined.

(** X8. A broker constructed without a window of its own (none in the
    options, or a falsy one) reads the global window: after [fetch],
    [isForceAuth] answers whether the pathname of the global window's
    location is '/force_auth' or '/oauth/force_auth'. *)
Theorem fetch_reads_the_global_window env proto options w0 lw ll :
  truthy (default VUndefined (options !! "window")) = false →
  global_window env = VRef lw →
  is_Some (heap w0 !! lw) →
  getProp (heap w0) lw "location" = VRef ll →
  is_Some (heap w0 !! ll) →
  let pathname := getProp (heap w0) ll "pathname" in
  ∃ this w1,
    construct env proto options w0 = (Returns (VRef this), w1) ∧
    let w2 := (B.fetch env (VRef this) w1).2 in
    B.isForceAuth (VRef this) w2
      = (Returns (VBool (bool_decide (pathname = VStr "/force_auth"
                                      ∨ pathname = VStr "/oauth/force_auth"))), w2).
Proof.
  intros Hopt Hglob Hlw Hloc Hll pathname.
  destruct (construct_props env proto options w0)
    as (this & la & lb & lc & w1 & E & Hu & Hg & Hf).
  exists this, w1. split; [done|]. intros w2.
  assert (getProp (heap w1) this "window" = VRef lw) as Hwin.
  { unfold getProp. unfold untouched in Hu. rewrite Hu, instance_props_window.
    simpl. unfold js_or. by rewrite Hopt. }
  assert (getProp (heap w1) lw "location" = VRef ll) as Hloc1.
  { rewrite <- Hloc. apply getProp_lookup. by apply Hf. }
  pose proof (fetch_caches env this _ lw ll w1 Hg Hu Hwin Hloc1) as Hc.
  simpl in Hc. fold w2 in Hc.
  assert (getProp (heap w1) ll "pathname" = pathname) as Hp.
  { apply getProp_lookup. by apply Hf. }
  rewrite Hp in Hc.
  rewrite (isForceAuth_reads this _ w2 Hc). by rewrite lookup_insert_eq.
Qed.

Lemma fetch_reads_the_global_window_witness :
  ∃ this w1,
    construct Collaborators.global (Examples.baseProto Examples.the) ∅ Examples.world
      = (Returns (VRef this), w1) ∧
    let w2 := (B.fetch Collaborators.global (VRef this) w1).2 in
    B.isForceAuth (VRef this) w2 = (Returns (VBool true), w2).
Proof.
  destruct (fetch_reads_the_global_window Collaborators.global (Examples.baseProto Examples.the)
              ∅ Examples.world 13%positive 12%positive)
    as (this & w1 & E & H);
    [ vm_compute; reflexivity | vm_compute; reflexivity | vm_compute; eexists; reflexivity
    | vm_compute; reflexivity | vm_compute; eexists; reflexivity |].
  exists this, w1. split; [exact E|].
  assert (getProp (heap Examples.world) 12%positive "pathname" = VStr "/oauth/force_auth")
    as Ep by (vm_compute; reflexivity).
  rewrite Ep in H. exact H.
Defined.

(** X9. On a new instance [isAutomatedBrowser] answers the truth value
    of the [automatedBrowser] attribute the constructor was given
    (false when it was given none), and no call of [setBehavior],
    [setCapability] or [unsetCapability] changes that. *)
Theorem isAutomatedBrowser_from_options env proto options w0 (ops : list RegistryOp) :
  ∃ this w1,
    construct env proto options w0 = (Returns (VRef this), w1) ∧
    let w := run_on env (kind proto) (VRef this) ops w1 in
    B.isAutomatedBrowser (VRef this) w
      = (Returns (VBool (truthy (default VUndefined (options !! "automatedBrowser")))), w).
Proof.
  destruct (construct_spec env proto options w0)
    as (this & la & lb & lc & B0 & C0 & w1 & E & ND & F & H & _).
  exists this, w1. split; [done|]. intros w.
  pose proof ND as ND'.
  apply NoDup_cons in ND as [N1 ND]. apply NoDup_cons in ND as [N2 ND].
  apply NoDup_cons in ND as [N3 _].
  rewrite ?elem_of_cons, ?elem_of_nil in N1.
  rewrite ?elem_of_cons, ?elem_of_nil in N2.
  rewrite ?elem_of_cons, ?elem_of_nil in N3.
  assert (instance (heap w1) this lb lc B0 C0) as I1.
  { rewrite H. unfold instance, getProp.
    rewrite !(lookup_insert_ne _ _ this), lookup_insert_eq by intuition congruence.
    rewrite lookup_insert_eq, lookup_insert_ne, lookup_insert_eq by intuition congruence.
    split_and!; try (intuition congruence).
    + unfold instance_props, base_props. by rewrite lookup_insert_ne, lookup_insert_eq.
    + unfold instance_props, base_props. by rewrite lookup_insert_eq. }
  assert (heap w !! this = Some (instance_props env (kind proto) options la lb lc)) as Hthis.
  { subst w. rewrite (run_on_frame _ _ _ _ _ _ _ _ _ _ I1) by intuition congruence.
    rewrite H. by rewrite !(lookup_insert_ne _ _ this), lookup_insert_eq by intuition congruence. }
  assert (heap w !! la = Some options) as Hla.
  { subst w. rewrite (run_on_frame _ _ _ _ _ _ _ _ _ _ I1) by intuition congruence.
    rewrite H. by rewrite !(lookup_insert_ne _ _ la), lookup_insert_eq by intuition congruence. }
  unfold B.isAutomatedBrowser.
  erewrite bind_returns; cycle 1.
  { simpl. unfold getProp. rewrite Hthis. unfold instance_props, base_props.
    destruct (kind proto); unfold oauth_props; by lookup_props. }
  erewrite bind_returns; [| simpl; unfold getProp; by rewrite Hla].
  done.
Qed.

(** *** Verification data *)

Lemma base_persistVerificationData_record this la lr w :
  getProp (heap w) this "relier" = VRef lr →
  let uid := getProp (heap w) la "uid" in
  let record : Obj :=
    <["email" := getProp (heap w) la "email"]>
      {[ "context" := getProp (heap w) lr "context" ]} in
  B.persistVerificationData (VRef this) (VRef la) w
    = (Returns VUndefined, set_storage (insert ("context", uid) record) w).
Proof.
  intros Hrel uid record. unfold B.persistVerificationData, B.createSameBrowserVerificationModel.
  rewrite !bind_assoc.
  do 2 (erewrite bind_returns; [| simpl; done]).
  erewrite bind_returns; [| simpl; by rewrite Hrel].
  erewrite bind_returns; [| simpl; done].
  unfold SameBrowserVerificationModel.persist, SameBrowserVerificationModel.set. simpl.
  by rewrite (right_id_L ∅ (∪)).
Qed.

(** X10. The base broker's [persistVerificationData account] returns
    normally and writes one correlation record, under ('context', the
    account's uid), holding the account's email and the relier's
    context. The record of every other key, so of every other account,
    is as it was, as are the store, the session and the call trace; and
    persisting again for the same account changes nothing. *)
Theorem persistVerificationData_keyed_by_uid this la lr w :
  getProp (heap w) this "relier" = VRef lr →
  let uid := getProp (heap w) la "uid" in
  let record : Obj :=
    <["email" := getProp (heap w) la "email"]>
      {[ "context" := getProp (heap w) lr "context" ]} in
  let r := B.persistVerificationData (VRef this) (VRef la) w in
  r.1 = Returns VUndefined ∧
  SameBrowserVerificationModel.read "context" uid r.2 = Some record ∧
  (∀ ns uid', (ns, uid') ≠ ("context", uid) →
     SameBrowserVerificationModel.read ns uid' r.2
       = SameBrowserVerificationModel.read ns uid' w) ∧
  heap r.2 = heap w ∧ session r.2 = session w ∧ calls r.2 = calls w ∧
  B.persistVerificationData (VRef this) (VRef la) r.2 = (Returns VUndefined, r.2).
Proof.
  intros Hrel uid record r.
  pose proof (base_persistVerificationData_record this la lr w Hrel) as E.
  cbv zeta in E. fold uid record in E. subst r. rewrite E. simpl.
  split_and!; try done.
  - unfold SameBrowserVerificationModel.read. simpl. apply lookup_insert_eq.
  - intros ns uid' Hne. unfold SameBrowserVerificationModel.read. simpl.
    by apply lookup_insert_ne.
  - rewrite (base_persistVerificationData_record this la lr
               (set_storage (insert ("context", uid) record) w) Hrel). simpl.
    fold uid record. f_equal. destruct w as [h s st c]. unfold set_storage. simpl.
    f_equal. apply insert_insert_eq.
Qed.

Lemma persistVerificationData_keyed_by_uid_witness :
  let r := B.persistVerificationData (VRef 14%positive) (VRef 7%positive) Examples.world in
  r.1 = Returns VUndefined ∧
  SameBrowserVerificationModel.read "context" (VStr "uid1") r.2
    = Some (<["email" := VStr "a@b.c"]> {[ "context" := VStr "oauth" ]}) ∧
  SameBrowserVerificationModel.read "context" (VStr "uid2") r.2 = None.
Proof.
  intros r.
  destruct (persistVerificationData_keyed_by_uid 14%positive 7%positive 6%positive
              Examples.world) as (H1 & H2 & H3 & _); [vm_compute; reflexivity|].
  fold r in H1, H2, H3.
  assert (getProp (heap Examples.world) 7%positive "uid" = VStr "uid1") as Eu
    by (vm_compute; reflexivity).
  assert (getProp (heap Examples.world) 7%positive "email" = VStr "a@b.c") as Ee
    by (vm_compute; reflexivity).
  assert (getProp (heap Examples.world) 6%positive "context" = VStr "oauth") as Ec
    by (vm_compute; reflexivity).
  rewrite Eu, Ee, Ec in H2. rewrite Eu in H3.
  split_and!; [exact H1 | exact H2 |].
  rewrite H3; [vm_compute; reflexivity | discriminate].
Defined.

(** X11. On either broker [afterCompleteSignUp account] and
    [afterCompleteResetPassword account] first delete the correlation
    record of ('context', the account's uid) and then answer what
    [getBehavior] answers for the hook's own name: the record is gone
    also when that lookup fails, and nothing but the record changes. *)
Theorem afterComplete_clears_first env k this la m name w :
  (m, name) ∈ [(afterCompleteSignUp (VRef la), "afterCompleteSignUp");
               (afterCompleteResetPassword (VRef la), "afterCompleteResetPassword")] →
  let uid := getProp (heap w) la "uid" in
  let r := invoke env k this m w in
  r.1 = (B.getBehavior this name w).1 ∧
  r.2 = set_storage (delete ("context", uid)) w ∧
  SameBrowserVerificationModel.read "context" uid r.2 = None.
Proof.
  intros Hm uid r.
  assert (r = ((B.getBehavior this name (set_storage (delete ("context", uid)) w)).1,
               set_storage (delete ("context", uid)) w)) as ->.
  { rewrite !elem_of_cons, elem_of_nil in Hm.
    destruct Hm as [[= -> ->]|[[= -> ->]|[]]]; subst r; destruct k; simpl;
      unfold B.afterCompleteSignUp, B.afterCompleteResetPassword;
      (erewrite bind_returns; [| reflexivity]);
      rewrite (surjective_pairing (B.getBehavior _ _ _)) at 1;
      by rewrite reads_getBehavior. }
  simpl. split_and!; [by apply getBehavior_heap | done |].
  unfold SameBrowserVerificationModel.read. simpl. apply lookup_delete_eq.
Qed.

Lemma afterComplete_clears_first_witness :
  let w := (B.persistVerificationData (VRef 14%positive) (VRef 7%positive) Examples.world).2 in
  let r := invoke Examples.env Base (VRef 14%positive) (afterCompleteSignUp (VRef 7%positive))
             w in
  is_Some (SameBrowserVerificationModel.read "context" (VStr "uid1") w) ∧
  r.1 = Returns (VBehavior NullBehavior) ∧
  SameBrowserVerificationModel.read "context" (VStr "uid1") r.2 = None.
Proof.
  intros w r.
  destruct (afterComplete_clears_first Examples.env Base (VRef 14%positive) 7%positive
              (afterCompleteSignUp (VRef 7%positive)) "afterCompleteSignUp" w)
    as (H1 & _ & H3); [apply list_elem_of_here|].
  fold r in H1, H3.
  assert (getProp (heap w) 7%positive "uid" = VStr "uid1") as Eu by (vm_compute; reflexivity).
  rewrite Eu in H3.
  split_and!; [vm_compute; eexists; reflexivity | | exact H3].
  rewrite H1. vm_compute. reflexivity.
Defined.

(** X12. The OAuth broker's [persistVerificationData] writes the session
    before it looks at the account: called with an account that is no
    object (null, undefined, ...) it fails with a TypeError, and the
    'oauth' session record has been written all the same, with the
    relier's fields; no correlation record is written. The base
    broker's method fails on such an account without writing
    anything. *)
Theorem oauth_persistVerificationData_without_account env this lr ls account w :
  getProp (heap w) this "relier" = VRef lr →
  getProp (heap w) this "session" = VRef ls →
  (∀ l, account ≠ VRef l) →
  let r := invoke env OAuth (VRef this) (persistVerificationData account) w in
  r.1 = Fails TypeError ∧
  session r.2 !! "oauth"
    = Some (list_to_map [
        ("access_type", getProp (heap w) lr "access_type");
        ("action", getProp (heap w) lr "action");
        ("client_id", getProp (heap w) lr "clientId");
        ("keys", getProp (heap w) lr "keys");
        ("scope", getProp (heap w) lr "scope");
        ("state", getProp (heap w) lr "state") ]) ∧
  storage r.2 = storage w ∧
  invoke env Base (VRef this) (persistVerificationData account) w = (Fails TypeError, w).
Proof.
  intros Hrel Hses Hacc r.
  assert (∀ k w', Model.get account k w' = (Fails TypeError, w')) as Hget.
  { intros k w'. destruct account; try done. by destruct (Hacc l). }
  subst r. simpl. unfold O.persistVerificationData.
  erewrite bind_returns; [| simpl; by rewrite Hrel].
  erewrite bind_returns; [| simpl; by rewrite Hses].
  do 6 (erewrite bind_returns; [| simpl; done]).
  erewrite bind_returns; [| simpl; done].
  unfold B.persistVerificationData, B.createSameBrowserVerificationModel.
  rewrite !bind_assoc.
  erewrite !bind_fails by apply Hget.
  simpl. split_and!; try done.
  by rewrite lookup_insert_eq.
Qed.

Lemma oauth_persistVerificationData_without_account_witness :
  let r := invoke Examples.env OAuth (VRef 18%positive) (persistVerificationData VNull)
             Examples.world in
  r.1 = Fails TypeError ∧ is_Some (session r.2 !! "oauth") ∧
  session Examples.world !! "oauth" = None.
Proof.
  intros r.
  destruct (oauth_persistVerificationData_without_account Examples.env 18%positive 6%positive
              9%positive VNull Examples.world)
    as (H1 & H2 & _); [vm_compute; reflexivity | vm_compute; reflexivity | discriminate |].
  fold r in H1, H2. split_and!; [exact H1 | rewrite H2; eexists; reflexivity |].
  vm_compute. reflexivity.
Defined.

(** X13. For an account that is an object, the OAuth broker's
    [persistVerificationData] is the base broker's run after one write
    to the session: it returns normally, the 'oauth' session record
    holds the relier's ['access_type'], [action], [clientId], [keys],
    [scope] and [state] attributes, the correlation records are those
    the base broker's method leaves, and the store and the call trace
    are as they were. *)
Theorem oauth_persistVerificationData_extends_base env this lr ls la w :
  getProp (heap w) this "relier" = VRef lr →
  getProp (heap w) this "session" = VRef ls →
  let record : Obj :=
    list_to_map [
      ("access_type", getProp (heap w) lr "access_type");
      ("action", getProp (heap w) lr "action");
      ("client_id", getProp (heap w) lr "clientId");
      ("keys", getProp (heap w) lr "keys");
      ("scope", getProp (heap w) lr "scope");
      ("state", getProp (heap w) lr "state") ] in
  let r := invoke env OAuth (VRef this) (persistVerificationData (VRef la)) w in
  r = B.persistVerificationData (VRef this) (VRef la) (set_session (insert "oauth" record) w) ∧
  r.1 = Returns VUndefined ∧
  session r.2 = <["oauth" := record]> (session w) ∧
  storage r.2 = storage (invoke env Base (VRef this) (persistVerificationData (VRef la)) w).2 ∧
  heap r.2 = heap w ∧
  calls r.2 = calls w.
Proof.
  intros Hrel Hses record r.
  assert (r = B.persistVerificationData (VRef this) (VRef la)
                (set_session (insert "oauth" record) w)) as ->.
  { subst r. simpl. unfold O.persistVerificationData.
    erewrite bind_returns; [| simpl; by rewrite Hrel].
    erewrite bind_returns; [| simpl; by rewrite Hses].
    do 6 (erewrite bind_returns; [| simpl; done]).
    erewrite bind_returns; [| simpl; done]. done. }
  simpl.
  rewrite (base_persistVerificationData_record this la lr
             (set_session (insert "oauth" record) w) Hrel),
    (base_persistVerificationData_record this la lr w Hrel).
  done.
Qed.

Lemma oauth_persistVerificationData_extends_base_witness :
  let r := invoke Examples.env OAuth (VRef 18%positive)
             (persistVerificationData (VRef 7%positive)) Examples.world in
  r.1 = Returns VUndefined ∧
  (∃ record : Obj,
     session r.2 = <["oauth" := record]> (session Examples.world) ∧
     record !! "access_type" = Some VUndefined ∧
     record !! "client_id" = Some (VStr "dcdb5ae7add825d2")).
Proof.
  intros r.
  destruct (oauth_persistVerificationData_extends_base Examples.env 18%positive 6%positive
              9%positive 7%positive Examples.world)
    as (_ & H1 & H2 & _); [vm_compute; reflexivity | vm_compute; reflexivity |].
  fold r in H1, H2. split; [exact H1|].
  eexists. split; [exact H2|]. split; vm_compute; reflexivity.
Defined.

(** *** OAuth results *)

Lemma keeps_storage_formatOAuthResult env result :
  keeps storage (O._formatOAuthResult env result).
Proof. unfold O._formatOAuthResult. keeps_steps. Qed.

Lemma keeps_storage_getOAuthResult env this account :
  keeps storage (O.getOAuthResult env this account).
Proof.
  unfold O.getOAuthResult. keeps_steps. apply keeps_storage_formatOAuthResult.
Qed.

(** [getOAuthResult] up to the answer of the assertion library. *)
Lemma getOAuthResult_generate env this la llib w :
  let sessionToken := getProp (heap w) la "sessionToken" in
  truthy sessionToken = true →
  getProp (heap w) this "_assertionLibrary" = VRef llib →
  O.getOAuthResult env (VRef this) (VRef la) w =
    match generate env (calls w) sessionToken with
    | Fails e => (Fails e, log_call (CallGenerate sessionToken) w)
    | Returns assertion =>
        (relier ← member (VRef this) "relier";
         clientId ← Model.get relier "clientId";
         scope ← Model.get relier "scope";
         state ← Model.get relier "state";
         let oauthParams : Obj :=
           list_to_map [
             ("assertion", assertion);
             ("client_id", clientId);
             ("scope", scope);
             ("state", state)
           ] in
         accessType ← Model.get relier "accessType";
         let oauthParams : Obj :=
           if strict_eq accessType Constants.ACCESS_TYPE_OFFLINE
           then <["access_type" := Constants.ACCESS_TYPE_OFFLINE]> oauthParams
           else oauthParams in
         oAuthClient ← member (VRef this) "_oAuthClient";
         result ← O.call_getCode env oAuthClient oauthParams;
         O._formatOAuthResult env result) (log_call (CallGenerate sessionToken) w)
    end.
Proof.
  intros sessionToken Htok Hlib. unfold O.getOAuthResult.
  erewrite bind_returns;
    [| unfold O.has_sessionToken; simpl; unfold mbind, M_bind, bind; simpl;
       fold sessionToken; by rewrite Htok].
  simpl.
  erewrite bind_returns; [| simpl; by rewrite Hlib].
  erewrite bind_returns; [| simpl; done].
  fold sessionToken.
  unfold mbind at 1. unfold M_bind, bind at 1. unfold O.call_generate at 1.
  by destruct (generate env (calls w) sessionToken).
Qed.

(** [getOAuthResult] up to the answer of the OAuth client. *)
Lemma getOAuthResult_getCode env this la llib lr lc w assertion :
  let sessionToken := getProp (heap w) la "sessionToken" in
  let w1 := log_call (CallGenerate sessionToken) w in
  let oauthParams := oauthParams_of (heap w) lr assertion in
  truthy sessionToken = true →
  getProp (heap w) this "_assertionLibrary" = VRef llib →
  getProp (heap w) this "relier" = VRef lr →
  getProp (heap w) this "_oAuthClient" = VRef lc →
  generate env (calls w) sessionToken = Returns assertion →
  O.getOAuthResult env (VRef this) (VRef la) w =
    match getCode env (calls w1) oauthParams with
    | Fails e => (Fails e, log_call (CallGetCode oauthParams) w1)
    | Returns result => O._formatOAuthResult env result (log_call (CallGetCode oauthParams) w1)
    end.
Proof.
  intros sessionToken w1 oauthParams Htok Hlib Hrel Hcli Hgen.
  rewrite (getOAuthResult_generate env this la llib) by done.
  fold sessionToken. rewrite Hgen. fold w1.
  erewrite bind_returns; [| simpl; by rewrite Hrel].
  do 4 (erewrite bind_returns; [| simpl; done]).
  erewrite bind_returns; [| simpl; by rewrite Hcli].
  unfold mbind, M_bind, bind, O.call_getCode. simpl.
  subst oauthParams w1. unfold oauthParams_of. simpl.
  by destruct (getCode env _ _).
Qed.

Lemma finishOAuthFlow_fails env this account d w :
  ∃ e, (O.finishOAuthFlow env this account d w).1 = Fails e.
Proof.
  unfold O.finishOAuthFlow, O.sendOAuthResultToRelier, mbind, M_bind, bind.
  destruct (member this "session" w) as [[s|e] w1]; [|by eexists].
  destruct (Session.clear s "oauth" w1) as [[u|e] w2]; [|by eexists].
  destruct (O.getOAuthResult env this account w2) as [[r|e] w3]; [|by eexists].
  destruct (extend r d w3) as [[r'|e] w4]; by eexists.
Qed.

Lemma bind_fails_outcome {A B} (m : M A) (f : A → M B) w :
  (∃ e, (m w).1 = Fails e) → ∃ e, ((m ≫= f) w).1 = Fails e.
Proof.
  intros [e He]. unfold mbind, M_bind, bind.
  destruct (m w) as [[a|e'] w']; simpl in *; [done | by eexists].
Qed.

Lemma getProp_extendProps l (d : Obj) (h : Heap) k :
  getProp (extendProps l d h) l k = default (getProp h l k) (d !! k).
Proof.
  unfold getProp, extendProps, object_at. rewrite lookup_insert_eq.
  destruct (d !! k) as [v|] eqn:E.
  - by rewrite (lookup_union_Some_l _ _ _ _ E).
  - rewrite lookup_union_r by done. by destruct (h !! l).
Qed.

(** X14. Whatever [this] and the account are and however it ends,
    [getOAuthResult] calls the assertion library at most once and the
    OAuth client at most once, the client only after the library: the
    call trace grows by nothing, by one [generate], or by one
    [generate] followed by one [getCode]. The session and the
    correlation records are as they were. *)
Theorem getOAuthResult_calls env this account w :
  let r := O.getOAuthResult env this account w in
  session r.2 = session w ∧
  storage r.2 = storage w ∧
  (calls r.2 = calls w ∨
   (∃ sessionToken, calls r.2 = (calls w ++ [CallGenerate sessionToken])%list) ∨
   (∃ sessionToken oauthParams,
      calls r.2 = (calls w ++ [CallGenerate sessionToken; CallGetCode oauthParams])%list)).
Proof.
  intros r. split_and!.
  - apply keeps_session_getOAuthResult.
  - apply keeps_storage_getOAuthResult.
  - subst r.
    set (shape := λ c : list Call,
      c = calls w ∨
      (∃ sessionToken, c = (calls w ++ [CallGenerate sessionToken])%list) ∨
      (∃ sessionToken oauthParams,
         c = (calls w ++ [CallGenerate sessionToken; CallGetCode oauthParams])%list)).
    change (shape (calls (O.getOAuthResult env this account w).2)).
    unfold O.getOAuthResult.
    unfold mbind at 1. unfold M_bind, bind at 1.
    pose proof (keeps_has_sessionToken calls account w) as K0.
    destruct (O.has_sessionToken account w) as [[ok|e] w0]; simpl in K0;
      [|unfold shape; by left].
    destruct ok; simpl; [|unfold shape; by left].
    unfold mbind at 1. unfold M_bind, bind at 1.
    pose proof (keeps_heap_member calls this "_assertionLibrary" w0) as K1.
    destruct (member this "_assertionLibrary" w0) as [[lib|e] w1]; simpl in K1;
      [|unfold shape; left; simpl; congruence].
    unfold mbind at 1. unfold M_bind, bind at 1.
    pose proof (keeps_Model_get calls account "sessionToken" w1) as K2.
    destruct (Model.get account "sessionToken" w1) as [[tok|e] w2]; simpl in K2;
      [|unfold shape; left; simpl; congruence].
    unfold mbind at 1. unfold M_bind, bind at 1.
    destruct lib; simpl; try (unfold shape; left; simpl; congruence).
    assert (calls (log_call (CallGenerate tok) w2) = (calls w ++ [CallGenerate tok])%list)
      as K3 by (simpl; congruence).
    destruct (generate env (calls w2) tok) as [assertion|e];
      [|unfold shape; right; left; exists tok; simpl; congruence].
    set (w3 := log_call (CallGenerate tok) w2) in *. clearbody w3.
    unfold mbind at 1. unfold M_bind, bind at 1.
    pose proof (keeps_heap_member calls this "relier" w3) as K4.
    destruct (member this "relier" w3) as [[relier|e] w4]; simpl in K4;
      [|unfold shape; right; left; exists tok; simpl; congruence].
    unfold mbind at 1. unfold M_bind, bind at 1.
    pose proof (keeps_Model_get calls relier "clientId" w4) as K5.
    destruct (Model.get relier "clientId" w4) as [[clientId|e] w5]; simpl in K5;
      [|unfold shape; right; left; exists tok; simpl; congruence].
    unfold mbind at 1. unfold M_bind, bind at 1.
    pose proof (keeps_Model_get calls relier "scope" w5) as K6.
    destruct (Model.get relier "scope" w5) as [[scope|e] w6]; simpl in K6;
      [|unfold shape; right; left; exists tok; simpl; congruence].
    unfold mbind at 1. unfold M_bind, bind at 1.
    pose proof (keeps_Model_get calls relier "state" w6) as K7.
    destruct (Model.get relier "state" w6) as [[state|e] w7]; simpl in K7;
      [|unfold shape; right; left; exists tok; simpl; congruence].
    cbv zeta.
    unfold mbind at 1. unfold M_bind, bind at 1.
    pose proof (keeps_Model_get calls relier "accessType" w7) as K8.
    destruct (Model.get relier "accessType" w7) as [[accessType|e] w8]; simpl in K8;
      [|unfold shape; right; left; exists tok; simpl; congruence].
    unfold mbind at 1. unfold M_bind, bind at 1.
    pose proof (keeps_heap_member calls this "_oAuthClient" w8) as K9.
    destruct (member this "_oAuthClient" w8) as [[client|e] w9]; simpl in K9;
      [|unfold shape; right; left; exists tok; simpl; congruence].
    unfold mbind at 1. unfold M_bind, bind at 1.
    destruct client; simpl; try (unfold shape; right; left; exists tok; simpl; congruence).
    match goal with |- context [getCode env ?c ?p] =>
      set (oauthParams := p);
      assert (calls (log_call (CallGetCode oauthParams) w9)
              = (calls w ++ [CallGenerate tok; CallGetCode oauthParams])%list) as K10
        by (simpl; rewrite K9, K8, K7, K6, K5, K4, K3; by rewrite <- app_assoc)
    end.
    destruct (getCode env (calls w9) oauthParams) as [result|e].
    + unfold shape. right. right. exists tok, oauthParams.
      by rewrite keeps_calls_formatOAuthResult.
    + unfold shape. right. right. by exists tok, oauthParams.
Qed.

(** X15. A failure of a collaborator is the failure of
    [getOAuthResult]: for an account with a session token, when the
    assertion library fails, [getOAuthResult] fails with the library's
    error and the OAuth client has not been called; when the library
    answers and the client fails, it fails with the client's error. The
    store is not written in either case. *)
Theorem getOAuthResult_collaborator_failure env this la llib lr lc w e :
  let sessionToken := getProp (heap w) la "sessionToken" in
  let w1 := log_call (CallGenerate sessionToken) w in
  truthy sessionToken = true →
  getProp (heap w) this "_assertionLibrary" = VRef llib →
  getProp (heap w) this "relier" = VRef lr →
  getProp (heap w) this "_oAuthClient" = VRef lc →
  (generate env (calls w) sessionToken = Fails e →
   O.getOAuthResult env (VRef this) (VRef la) w = (Fails e, w1)) ∧
  (∀ assertion,
     generate env (calls w) sessionToken = Returns assertion →
     getCode env (calls w1) (oauthParams_of (heap w) lr assertion) = Fails e →
     O.getOAuthResult env (VRef this) (VRef la) w
       = (Fails e, log_call (CallGetCode (oauthParams_of (heap w) lr assertion)) w1)).
Proof.
  intros sessionToken w1 Htok Hlib Hrel Hcli. split.
  - intros Hgen. rewrite (getOAuthResult_generate env this la llib) by done.
    fold sessionToken. by rewrite Hgen.
  - intros assertion Hgen Hcode.
    rewrite (getOAuthResult_getCode env this la llib lr lc w assertion) by done.
    fold sessionToken w1. by rewrite Hcode.
Qed.

Lemma getOAuthResult_collaborator_failure_witness :
  O.getOAuthResult Collaborators.refusing (VRef 18%positive) (VRef 7%positive) Examples.world
    = (Fails (AuthError "UNEXPECTED_ERROR"),
       log_call (CallGenerate (getProp (heap Examples.world) 7%positive "sessionToken"))
         Examples.world).
Proof.
  destruct (getOAuthResult_collaborator_failure Collaborators.refusing 18%positive 7%positive
              10%positive 6%positive 11%positive Examples.world (AuthError "UNEXPECTED_ERROR"))
    as [H _]; [vm_compute; reflexivity | vm_compute; reflexivity | vm_compute; reflexivity
              | vm_compute; reflexivity |].
  apply H. vm_compute. reflexivity.
Defined.

(** X16. The successful run of [getOAuthResult]: for an account with a
    session token, when the assertion library answers, the OAuth client
    answers with an object whose [redirect] is a non-empty string, and
    the code read from the redirect passes the
    validator, [getOAuthResult] returns that very object, with [state]
    and [code] set to what [Url.searchParam] reads from
    [redirect.split('?')[1]], the text between the first '?' of the
    redirect and the second (or the end), and nothing else in the store
    is written. *)
Theorem getOAuthResult_success env this la llib lr lc w assertion l s :
  let sessionToken := getProp (heap w) la "sessionToken" in
  let w1 := log_call (CallGenerate sessionToken) w in
  let oauthParams := oauthParams_of (heap w) lr assertion in
  let redirectParams := from_option VStr VUndefined (split_on "?" s !! 1%nat) in
  let state := Url_searchParam env "state" redirectParams in
  let code := Url_searchParam env "code" redirectParams in
  truthy sessionToken = true →
  getProp (heap w) this "_assertionLibrary" = VRef llib →
  getProp (heap w) this "relier" = VRef lr →
  getProp (heap w) this "_oAuthClient" = VRef lc →
  generate env (calls w) sessionToken = Returns assertion →
  getCode env (calls w1) oauthParams = Returns (VRef l) →
  getProp (heap w) l "redirect" = VStr s →
  s ≠ "" →
  Validate_isOAuthCodeValid env code = true →
  O.getOAuthResult env (VRef this) (VRef la) w =
    (Returns (VRef l),
     set_heap (setProp l "code" code ∘ setProp l "state" state)
       (log_call (CallGetCode oauthParams) w1)).
Proof.
  intros sessionToken w1 oauthParams redirectParams state code
    Htok Hlib Hrel Hcli Hgen Hcode Hred Hs Hvalid.
  rewrite (getOAuthResult_getCode env this la llib lr lc w assertion) by done.
  fold sessionToken w1 oauthParams. rewrite Hcode.
  rewrite (formatOAuthResult_string_redirect env l s) by done.
  fold redirectParams state code. by rewrite Hvalid.
Qed.

Lemma getOAuthResult_success_witness :
  let r := O.getOAuthResult Examples.env (VRef 18%positive) (VRef 7%positive) Examples.world in
  r.1 = Returns (VRef 1%positive) ∧
  getProp (heap r.2) 1%positive "code" = VStr "c0de" ∧
  getProp (heap r.2) 1%positive "state" = VStr "S".
Proof.
  intros r. subst r.
  rewrite (getOAuthResult_success Examples.env 18%positive 7%positive 10%positive 6%positive
             11%positive Examples.world (VStr "assertion") 1%positive
             "https://rp/cb?state=S&code=c0de");
    try (vm_compute; reflexivity); [| discriminate].
  split_and!; vm_compute; reflexivity.
Defined.

(** X17. When [getOAuthResult] returns, [finishOAuthFlow] copies the
    additional result data onto the result object itself, a key of the
    data overwriting the result's, and then fails with the error of
    [sendOAuthResultToRelier], which this class leaves to its
    subclasses; no other object is written at that step. *)
Theorem finishOAuthFlow_merges env this ls account d w l :
  getProp (heap w) this "session" = VRef ls →
  (O.getOAuthResult env (VRef this) account (set_session (delete "oauth") w)).1
    = Returns (VRef l) →
  let w1 := (O.getOAuthResult env (VRef this) account (set_session (delete "oauth") w)).2 in
  let r := O.finishOAuthFlow env (VRef this) account d w in
  r.1 = Fails (JSError "subclasses must override sendOAuthResultToRelier") ∧
  (∀ k, getProp (heap r.2) l k = default (getProp (heap w1) l k) (d !! k)) ∧
  (∀ l', l' ≠ l → heap r.2 !! l' = heap w1 !! l').
Proof.
  intros Hs Hg w1 r.
  assert (r = (Fails (JSError "subclasses must override sendOAuthResultToRelier"),
               set_heap (extendProps l d) w1)) as ->.
  { unfold r, O.finishOAuthFlow.
    erewrite bind_returns; [| simpl; by rewrite Hs].
    erewrite bind_returns; [| done].
    unfold w1.
    destruct (O.getOAuthResult env (VRef this) account (set_session (delete "oauth") w))
      as [[a|e'] w'] eqn:E; [|done].
    simpl in Hg. injection Hg as ->.
    erewrite bind_returns; [| done].
    erewrite bind_returns; [| done]. done. }
  simpl. split_and!; [done | apply getProp_extendProps |].
  intros l' Hl. by rewrite lookup_extendProps_ne.
Qed.

Lemma finishOAuthFlow_merges_witness :
  let r := O.finishOAuthFlow Examples.env (VRef 18%positive) (VRef 7%positive)
             {[ "action" := Constants.OAUTH_ACTION_SIGNUP ]} Examples.world in
  r.1 = Fails (JSError "subclasses must override sendOAuthResultToRelier") ∧
  getProp (heap r.2) 1%positive "action" = VStr "signup".
Proof.
  intros r.
  destruct (finishOAuthFlow_merges Examples.env 18%positive 9%positive (VRef 7%positive)
              {[ "action" := Constants.OAUTH_ACTION_SIGNUP ]} Examples.world 1%positive)
    as (H1 & H2 & _); [vm_compute; reflexivity | vm_compute; reflexivity |].
  fold r in H1, H2. split; [exact H1|].
  rewrite H2, lookup_singleton_eq. reflexivity.
Defined.

(** X18. On the OAuth broker as this class defines it, no hook that
    completes a flow ever returns: [afterSignIn], [afterForceAuth],
    [afterSignInConfirmationPoll], [afterSignUpConfirmationPoll],
    [afterResetPasswordConfirmationPoll], [finishOAuthSignInFlow] and
    [finishOAuthSignUpFlow] fail for every [this], account and world,
    for lack of a [sendOAuthResultToRelier] if for nothing else; the
    three hooks whose behaviour the class overrides never get to look
    it up. *)
Theorem oauth_completion_always_fails env this account m w :
  m ∈ [afterSignIn account; afterForceAuth account; afterSignInConfirmationPoll account;
       afterSignUpConfirmationPoll account; afterResetPasswordConfirmationPoll account;
       finishOAuthSignInFlow account; finishOAuthSignUpFlow account] →
  ∃ e, (invoke env OAuth this m w).1 = Fails e.
Proof.
  rewrite !elem_of_cons, elem_of_nil.
  intros [->|[->|[->|[->|[->|[->|[->|[]]]]]]]]; simpl;
    unfold O.afterSignIn, O.afterForceAuth, O.afterSignInConfirmationPoll,
      O.afterSignUpConfirmationPoll, O.afterResetPasswordConfirmationPoll,
      O.finishOAuthSignInFlow, O.finishOAuthSignUpFlow;
    first [ apply finishOAuthFlow_fails
          | apply bind_fails_outcome; apply finishOAuthFlow_fails ].
Qed.

Lemma oauth_completion_always_fails_witness :
  ∃ e, (invoke Examples.env OAuth (VRef 18%positive) (afterSignIn (VRef 7%positive))
          Examples.world).1 = Fails e.
Proof.
  apply (oauth_completion_always_fails Examples.env (VRef 18%positive) (VRef 7%positive)).
  apply list_elem_of_here.
Defined.

(** *** Links *)

(** X19. The OAuth broker's [transformLink] puts every link under
    '/oauth/': the result is '/oauth/' followed by the link without its
    leading slash, if it has one, so a link and the same link with a
    leading slash are transformed alike; the world is not changed. The
    base broker's [transformLink] returns the link as it is. *)
Theorem oauth_transformLink_prefix this link w :
  ∃ rest,
    O.transformLink this link w = (Returns (VStr ("/oauth/" +:+ rest)), w) ∧
    (link = "/" +:+ rest ∨ (link = rest ∧ ∀ tail, link ≠ "/" +:+ tail)) ∧
    O.transformLink this ("/" +:+ rest) w = O.transformLink this link w ∧
    B.transformLink this link w = (Returns (VStr link), w).
Proof.
  unfold O.transformLink, B.transformLink.
  destruct link as [|c tail].
  - exists "". split_and!; try done. right. split; [done|]. intros tail. discriminate.
  - destruct (decide (c = "/"%char)) as [->|Hc].
    + exists tail. split_and!; try done. by left.
    + exists (String c tail).
      assert (∀ s, match String c tail with
                   | String "/" _ => String c tail
                   | _ => s
                   end = s) as Hm.
      { intros s. destruct c as [[] [] [] [] [] [] [] []]; try done. }
      rewrite Hm. split_and!; try done.
      right. split; [done|]. intros t [= ->]. done.
Qed.
